(** * Package class-diagram generator (utils/package_puml_generator.py)

    A shallow embedding of the extraction and rendering pipeline:
    the name resolver [_base_name], the class extractor [parse_classes],
    the aggregation into the two indexes [by_simple] and [by_module], the
    renderer [build_puml_for_package] and the batch driver [main].

    Python [str] values are modelled as [string]; comparing the UTF-8 bytes
    lexicographically is the same order as comparing code points, which is
    what Python's [sorted] does on [str].  Python [dict]s are modelled as
    [gmap]s: the only iteration over a dict in the source goes through
    [sorted(by_module.items())], whose keys are pairwise distinct. *)

From Stdlib Require Import String Ascii List Arith Lia Permutation Sorted.
From stdpp Require Import base option list gmap strings fin_maps pretty.

Set Warnings "-register-all".

Local Open Scope string_scope.
Local Open Scope list_scope.

(** ** Syntax trees (the part of [ast] the generator inspects) *)

(** Expressions, as they occur in the [bases] of a class statement. *)
Inductive expr : Type :=
| Name (id : string)
| Attribute (value : expr) (attr : string)
| Subscript (value : expr) (slice : expr)
| Call (func : expr) (args : list expr)
| Constant (repr : string)
| OtherExpr.

(** Statement-level nodes.  Expression children are left out of
    [iter_child_nodes]: an expression never contains a class statement, and
    dropping them from the breadth-first queue does not change the relative
    order in which the remaining nodes are visited. *)
Inductive node : Type :=
| Module_ (body : list node)
| ClassDef (name : string) (bases : list expr) (body : list node)
| FunctionDef (name : string) (body : list node)
| AsyncFunctionDef (name : string) (body : list node)
| OtherNode (children : list node).

Definition iter_child_nodes (n : node) : list node :=
  match n with
  | Module_ body => body
  | ClassDef _ _ body => body
  | FunctionDef _ body => body
  | AsyncFunctionDef _ body => body
  | OtherNode children => children
  end.

Fixpoint node_size (n : node) : nat :=
  let fix sizes (l : list node) : nat :=
    match l with
    | [] => 0
    | x :: l' => node_size x + sizes l'
    end in
  match n with
  | Module_ body => S (sizes body)
  | ClassDef _ _ body => S (sizes body)
  | FunctionDef _ body => S (sizes body)
  | AsyncFunctionDef _ body => S (sizes body)
  | OtherNode children => S (sizes children)
  end.

Fixpoint nodes_size (l : list node) : nat :=
  match l with
  | [] => 0
  | x :: l' => node_size x + nodes_size l'
  end.

(** [ast.walk]: a queue, [popleft], then [extend] with the children. *)
Fixpoint walk_loop (fuel : nat) (todo : list node) : list node :=
  match fuel with
  | 0 => []
  | S fuel' =>
      match todo with
      | [] => []
      | n :: rest => n :: walk_loop fuel' (rest ++ iter_child_nodes n)
      end
  end.

Definition walk (tree : node) : list node :=
  walk_loop (node_size tree) [tree].

(** ** Class records *)

Record ClassInfo : Type := mkClassInfo {
  module : string;
  name : string;
  bases : list string;
  methods : list string
}.

(** [s.replace(".", "_")] *)
Fixpoint replace_dot (s : string) : string :=
  match s with
  | EmptyString => EmptyString
  | String c s' =>
      String (if Ascii.eqb c "."%char then "_"%char else c) (replace_dot s')
  end.

Definition fqname (c : ClassInfo) : string :=
  if String.eqb (module c) "" then name c
  else module c +:+ "." +:+ name c.

Definition alias (c : ClassInfo) : string :=
  if String.eqb (module c) "" then name c
  else replace_dot (module c +:+ "_" +:+ name c).

(** ** Name resolver *)

(** The [while isinstance(cur, ast.Attribute)] loop. *)
Fixpoint attribute_loop (parts : list string) (cur : expr)
  : list string * expr :=
  match cur with
  | Attribute value attr => attribute_loop (parts ++ [attr]) value
  | _ => (parts, cur)
  end.

Fixpoint _base_name (e : expr) : option string :=
  match e with
  | Name id => Some id
  | Attribute _ _ =>
      let '(parts, cur) := attribute_loop [] e in
      let parts :=
        match cur with
        | Name id => parts ++ [id]
        | _ => parts
        end in
      let parts := rev parts in
      last parts
  | Subscript value _ => _base_name value
  | _ => None
  end.

(** ** Class extractor *)

(** Exceptions that the modelled code raises or swallows. *)
Inductive exn : Type :=
| FileNotFoundError (msg : string)
| OSError (msg : string)
| SyntaxError (msg : string)
| RecursionError (msg : string)
| OtherException (msg : string).

Definition exn_str (e : exn) : string :=
  match e with
  | FileNotFoundError msg => msg
  | OSError msg => msg
  | SyntaxError msg => msg
  | RecursionError msg => msg
  | OtherException msg => msg
  end.

(** One discovered source file: [module_parts] are the parts of
    [py_file.relative_to(package_dir).with_suffix("")], and [read_and_parse]
    is what [read_text] followed by [ast.parse] does on it. *)
Record py_file : Type := mkPyFile {
  module_parts : list string;
  read_and_parse : exn + node
}.

Definition module_str (f : py_file) : string :=
  String.concat "." (module_parts f).

(** The [for b in node.bases] loop; [if name:] rejects [None] and [""]. *)
Definition class_bases (bs : list expr) : list string :=
  fold_left
    (fun acc b =>
       match _base_name b with
       | Some s => if String.eqb s "" then acc else acc ++ [s]
       | None => acc
       end)
    bs [].

(** The [for body in node.body] loop. *)
Definition class_methods (body : list node) : list string :=
  fold_left
    (fun acc n =>
       match n with
       | FunctionDef nm _ => acc ++ [nm]
       | _ => acc
       end)
    body [].

Definition parse_classes (f : py_file) : list ClassInfo :=
  match read_and_parse f with
  | inl _ => []
  | inr tree =>
      fold_left
        (fun classes n =>
           match n with
           | ClassDef nm bs body =>
               classes ++
               [mkClassInfo (module_str f) nm (class_bases bs)
                  (class_methods body)]
           | _ => classes
           end)
        (walk tree) []
  end.

(** ** Aggregation *)

(** [all_classes.extend(parse_classes(f, package_dir))] for each file. *)
Definition collect_classes (py_files : list py_file) : list ClassInfo :=
  fold_left (fun acc f => acc ++ parse_classes f) py_files [].

(** [d.setdefault(k, []).append(c)] *)
Definition setdefault_append (k : string) (c : ClassInfo)
    (d : gmap string (list ClassInfo)) : gmap string (list ClassInfo) :=
  <[k := default [] (d !! k) ++ [c]]> d.

Definition by_simple (all_classes : list ClassInfo)
  : gmap string (list ClassInfo) :=
  fold_left (fun d c => setdefault_append (name c) c d) all_classes ∅.

Definition by_module (all_classes : list ClassInfo)
  : gmap string (list ClassInfo) :=
  fold_left (fun d c => setdefault_append (module c) c d) all_classes ∅.

(** ** Sorting: a stable sort by a string key, as [sorted(..., key=...)] *)

Fixpoint insert_by {A : Type} (key : A -> string) (x : A) (l : list A)
  : list A :=
  match l with
  | [] => [x]
  | y :: l' =>
      if String.leb (key x) (key y) then x :: l
      else y :: insert_by key x l'
  end.

Definition sorted {A : Type} (key : A -> string) (l : list A) : list A :=
  foldr (insert_by key) [] l.

(** ** Renderer *)

Definition dquote : string := String (ascii_of_nat 34) EmptyString.
Definition newline : string := String (ascii_of_nat 10) EmptyString.

(** [s.split(".")] *)
Fixpoint split_dot (s : string) : list string :=
  match s with
  | EmptyString => [EmptyString]
  | String c s' =>
      if Ascii.eqb c "."%char then EmptyString :: split_dot s'
      else
        match split_dot s' with
        | h :: t => String c h :: t
        | [] => [String c EmptyString]
        end
  end.

Definition display_module (m package_name : string) : string :=
  if String.eqb m "" then package_name
  else default "" (last (split_dot m)).

Definition method_line (m : string) : string := "      + " +:+ m +:+ "()".
Definition elision_line : string := "      .. (more) ..".
Definition class_header (c : ClassInfo) : string :=
  "    class " +:+ dquote +:+ fqname c +:+ dquote +:+ " as " +:+ alias c
  +:+ " {".
Definition class_close : string := "    }".

(** The body of [for c in sorted(classes, key=lambda x: x.name)]. *)
Definition class_block (lines : list string) (c : ClassInfo) : list string :=
  let lines := lines ++ [class_header c] in
  let lines :=
    fold_left (fun lines m => lines ++ [method_line m])
      (take 12 (sorted id (methods c))) lines in
  let lines :=
    if (12 <? length (methods c))%nat then lines ++ [elision_line] else lines in
  lines ++ [class_close].

(** The body of [for module, classes in sorted(by_module.items())]. *)
Definition module_block (package_name : string) (lines : list string)
    (item : string * list ClassInfo) : list string :=
  let '(m, classes) := item in
  let lines :=
    lines ++ ["  package " +:+ dquote +:+ display_module m package_name
              +:+ dquote +:+ " {"] in
  let lines := fold_left class_block (sorted name classes) lines in
  lines ++ ["  }"].

(** Everything up to and including the closing brace of the package. *)
Definition container_lines (package_name : string)
    (all_classes : list ClassInfo) : list string :=
  let lines :=
    ["@startuml"; "skinparam classAttributeIconSize 0";
     "package " +:+ dquote +:+ package_name +:+ dquote +:+ " {"] in
  let lines :=
    fold_left (module_block package_name)
      (sorted fst (map_to_list (by_module all_classes))) lines in
  lines ++ ["}"].

Definition edge_line (c t : ClassInfo) : string :=
  alias c +:+ " --|> " +:+ alias t.

(** The body of [for b in c.bases]. *)
Definition base_edges (index : gmap string (list ClassInfo)) (c : ClassInfo)
    (lines : list string) (b : string) : list string :=
  let targets := default [] (index !! b) in
  fold_left (fun lines t => lines ++ [edge_line c t]) targets lines.

(** The body of [for c in all_classes] in the inheritance section. *)
Definition class_edges (index : gmap string (list ClassInfo))
    (lines : list string) (c : ClassInfo) : list string :=
  fold_left (base_edges index c) (bases c) lines.

Definition render_lines (package_name : string)
    (all_classes : list ClassInfo) : list string :=
  let index := by_simple all_classes in
  let lines := container_lines package_name all_classes in
  let lines := fold_left (class_edges index) all_classes lines in
  lines ++ ["@enduml"].

(** ** Raising code: a small error monad *)

Definition bind {A B : Type} (m : exn + A) (k : A -> exn + B) : exn + B :=
  match m with
  | inl e => inl e
  | inr a => k a
  end.

Notation "x <- m ;; k" := (bind m (fun x => k))
  (at level 100, m at next level, right associativity).

(** A [for] loop whose body may raise: the first exception ends the loop. *)
Definition for_each {A S : Type} (l : list A) (s0 : S)
    (body : S -> A -> exn + S) : exn + S :=
  fold_left (fun acc x => s <- acc ;; body s x) l (inr s0).

(** ** Extraction on a bounded interpreter stack *)

(** [_base_name] when the stack admits [frames] more activations of it: each
    call, the first one and every recursive one on a subscript, takes a
    frame, and the call that finds none raises [RecursionError]. *)
Fixpoint _base_name_on_stack (frames : nat) (e : expr) : exn + option string :=
  match frames with
  | 0 => inl (RecursionError "maximum recursion depth exceeded")
  | S frames' =>
      match e with
      | Subscript value _ => _base_name_on_stack frames' value
      | _ => inr (_base_name e)
      end
  end.

(** The [for b in node.bases] loop; the call of the resolver is not inside
    any [try], so its exception leaves the loop. *)
Definition class_bases_on_stack (frames : nat) (bs : list expr)
  : exn + list string :=
  for_each bs []
    (fun acc b =>
       resolved <- _base_name_on_stack frames b ;;
       inr match resolved with
           | Some s => if String.eqb s "" then acc else acc ++ [s]
           | None => acc
           end).

(** [parse_classes]: the [try] covers [read_text] and [ast.parse] only. *)
Definition parse_classes_on_stack (frames : nat) (f : py_file)
  : exn + list ClassInfo :=
  match read_and_parse f with
  | inl _ => inr []
  | inr tree =>
      for_each (walk tree) []
        (fun classes n =>
           match n with
           | ClassDef nm bs body =>
               resolved <- class_bases_on_stack frames bs ;;
               inr (classes ++
                    [mkClassInfo (module_str f) nm resolved
                       (class_methods body)])
           | _ => inr classes
           end)
  end.

Definition collect_classes_on_stack (frames : nat) (py_files : list py_file)
  : exn + list ClassInfo :=
  for_each py_files []
    (fun acc f =>
       classes <- parse_classes_on_stack frames f ;;
       inr (acc ++ classes)).

(** ** Paths: the part of [pathlib] the generator uses (POSIX flavour) *)

(** [s.split("/")] *)
Fixpoint split_slash (s : string) : list string :=
  match s with
  | EmptyString => [EmptyString]
  | String c s' =>
      if Ascii.eqb c "/"%char then EmptyString :: split_slash s'
      else
        match split_slash s' with
        | h :: t => String c h :: t
        | [] => [String c EmptyString]
        end
  end.

Fixpoint leading_slashes (s : string) : nat :=
  match s with
  | EmptyString => 0
  | String c s' => if Ascii.eqb c "/"%char then S (leading_slashes s') else 0
  end.

(** A parsed path: the root ([""], ["/"] or ["//"]) and the names below. *)
Record PurePath : Type := mkPurePath {
  anchor : string;
  names : list string
}.

(** [Path(s)]: exactly two leading slashes are kept as the root, any other
    number of them is one; empty names and [.] are dropped, [..] is kept. *)
Definition parse_path (s : string) : PurePath :=
  mkPurePath
    match leading_slashes s with
    | 0 => ""
    | 2 => "//"
    | _ => "/"
    end
    (List.filter (fun x => negb (String.eqb x "") && negb (String.eqb x "."))
       (split_slash s)).

(** [p / s]: a rooted [s] replaces [p]. *)
Definition joinpath (p : PurePath) (s : string) : PurePath :=
  let q := parse_path s in
  if String.eqb (anchor q) "" then mkPurePath (anchor p) (names p ++ names q)
  else q.

(** [str(p)] *)
Definition path_str (p : PurePath) : string :=
  let joined := anchor p +:+ String.concat "/" (names p) in
  if String.eqb joined "" then "." else joined.

(** ** Package build *)

(** What the build meets at [root / package_name].
    - [Absent], [RegularFile]: [exists()] or [is_dir()] answers [False].
    - [StatFails msg]: the [stat] call behind [exists()] fails with an error
      that [pathlib] does not take for absence (a name that is too long, a
      parent that may not be searched), and [exists()] raises it again.
    - [Directory py_files]: a directory with the files returned by
      [find_python_files], in discovery order, visited on a stack that is
      deep enough for the name resolver.
    - [DirectoryOnStack frames py_files]: the same, visited when the stack
      admits only [frames] activations of the name resolver. *)
Inductive fsnode : Type :=
| Absent
| RegularFile
| Directory (py_files : list py_file)
| DirectoryOnStack (frames : nat) (py_files : list py_file)
| StatFails (msg : string).

Definition build_puml_for_package (fs : string -> fsnode)
    (package_name root : string) : exn + (string * list ClassInfo) :=
  let package_dir := joinpath (parse_path root) package_name in
  match fs package_name with
  | StatFails msg => inl (OSError msg)
  | Absent | RegularFile =>
      inl (FileNotFoundError
             ("Package directory not found: " +:+ path_str package_dir))
  | Directory py_files =>
      let all_classes := collect_classes py_files in
      inr (String.concat newline (render_lines package_name all_classes),
           all_classes)
  | DirectoryOnStack frames py_files =>
      all_classes <- collect_classes_on_stack frames py_files ;;
      inr (String.concat newline (render_lines package_name all_classes),
           all_classes)
  end.

(** ** Batch driver *)

(** The successful [write_text] calls so far, each with the path as printed
    and the text, and the lines printed so far. *)
Record world : Type := mkWorld {
  written : list (string * string);
  stdout : list string
}.

(** [write_puml].  [sink out content] is the exception that
    [output_dir.mkdir(parents=True, exist_ok=True)] or
    [out.write_text(content)] raises for this path and text, if any: a
    missing parent directory for a package name with a slash, a directory
    that may not be written, a name that is too long. *)
Definition write_puml (sink : string -> string -> option exn)
    (output_dir : PurePath) (package content : string) (w : world)
  : exn + (PurePath * world) :=
  let out := joinpath output_dir (package +:+ ".puml") in
  match sink (path_str out) content with
  | Some e => inl e
  | None =>
      inr (out, mkWorld (written w ++ [(path_str out, content)]) (stdout w))
  end.

Definition print (line : string) (w : world) : world :=
  mkWorld (written w) (stdout w ++ [line]).

(** One iteration of [for pkg in packages]: the [try] body, and the
    [except Exception] clause, which prints and goes on. *)
Definition main_step (fs : string -> fsnode)
    (sink : string -> string -> option exn) (repo_root : string)
    (w : world) (pkg : string) : world :=
  let output_dir := joinpath (parse_path repo_root) "package puml" in
  let attempt :=
    built <- build_puml_for_package fs pkg repo_root ;;
    saved <- write_puml sink output_dir pkg (fst built) w ;;
    inr (print ("Generated " +:+ path_str (fst saved) +:+ " with "
                +:+ pretty (length (snd built)) +:+ " classes")
           (snd saved)) in
  match attempt with
  | inr w' => w'
  | inl e =>
      print ("Failed to generate for '" +:+ pkg +:+ "': " +:+ exn_str e) w
  end.

Definition main (fs : string -> fsnode)
    (sink : string -> string -> option exn) (repo_root : string)
    (packages : list string) (w : world) : world :=
  fold_left (main_step fs sink repo_root) packages w.

(** ** Sample packages *)

(** [shape.py]: [class Shape: def area(self): ...] *)
Definition file_shape : py_file :=
  mkPyFile ["shape"]
    (inr (Module_ [ClassDef "Shape" [] [FunctionDef "area" [OtherNode []]]])).

(** [circle.py]: [class Circle(Shape): def area(self): ...] *)
Definition file_circle : py_file :=
  mkPyFile ["circle"]
    (inr (Module_ [ClassDef "Circle" [Name "Shape"]
                     [FunctionDef "area" [OtherNode []]]])).

(** [square.py]: [class Square(Shape): def area(self): ...] *)
Definition file_square : py_file :=
  mkPyFile ["square"]
    (inr (Module_ [ClassDef "Square" [Name "Shape"]
                     [FunctionDef "area" [OtherNode []]]])).

(** [tile.py]: [class Tile(core.Shape, legacy.Shape): pass] *)
Definition file_tile : py_file :=
  mkPyFile ["tile"]
    (inr (Module_ [ClassDef "Tile"
                     [Attribute (Name "core") "Shape";
                      Attribute (Name "legacy") "Shape"]
                     [OtherNode []]])).

(** [widgets/shape.py]: [class Shape(base.Shape): pass] *)
Definition file_widget : py_file :=
  mkPyFile ["widgets"; "shape"]
    (inr (Module_ [ClassDef "Shape" [Attribute (Name "base") "Shape"]
                     [OtherNode []]])).

(** [compat.py]: a [try] statement that defines [class Codec] in its body
    and again in its [except] handler. *)
Definition file_compat : py_file :=
  mkPyFile ["compat"]
    (inr (Module_ [OtherNode [ClassDef "Codec" [] [OtherNode []];
                              OtherNode [ClassDef "Codec" [] [OtherNode []]]]])).

(** [a/b.py] and [a_b.py], each with [class C: pass]. *)
Definition file_a_slash_b : py_file :=
  mkPyFile ["a"; "b"] (inr (Module_ [ClassDef "C" [] [OtherNode []]])).
Definition file_a_underscore_b : py_file :=
  mkPyFile ["a_b"] (inr (Module_ [ClassDef "C" [] [OtherNode []]])).

(** A file that is not valid source text. *)
Definition broken_file : py_file :=
  mkPyFile ["broken"] (inl (SyntaxError "invalid syntax")).

Definition discovery1 : list py_file := [file_circle; file_square; file_shape].
Definition discovery2 : list py_file := [file_square; file_circle; file_shape].

Definition shape_record : ClassInfo := mkClassInfo "shape" "Shape" [] ["area"].
Definition circle_record : ClassInfo :=
  mkClassInfo "circle" "Circle" ["Shape"] ["area"].
Definition tile_record : ClassInfo :=
  mkClassInfo "tile" "Tile" ["Shape"; "Shape"] [].
Definition widget_record : ClassInfo :=
  mkClassInfo "widgets.shape" "Shape" ["Shape"] [].

Definition fs_tiles (p : string) : fsnode :=
  if String.eqb p "tiles" then Directory [file_tile]
  else if String.eqb p "setup.py" then RegularFile
  else Absent.

(** ** Vocabulary of the statements *)

(** [s1 <= s2] on [str]. *)
Definition str_le (s1 s2 : string) : Prop := String.leb s1 s2 = true.

Definition key_le {A : Type} (key : A -> string) (x y : A) : Prop :=
  str_le (key x) (key y).

(** The record that one visited node contributes in [parse_classes]. *)
Definition class_of_node (module_str : string) (n : node) : list ClassInfo :=
  match n with
  | ClassDef nm bs body =>
      [mkClassInfo module_str nm (class_bases bs) (class_methods body)]
  | _ => []
  end.

(** The records whose simple name is [b], in the order of [all_classes]:
    the value of [by_simple.get(b, [])]. *)
Definition targets (all_classes : list ClassInfo) (b : string)
  : list ClassInfo :=
  List.filter (fun t => String.eqb (name t) b) all_classes.

(** The edge lines that the inheritance loop appends for one record. *)
Definition edges_of (all_classes : list ClassInfo) (c : ClassInfo)
  : list string :=
  flat_map (fun b => map (edge_line c) (targets all_classes b)) (bases c).

(** [s.startswith(prefix)] *)
Fixpoint startswith (prefix s : string) : bool :=
  match prefix, s with
  | EmptyString, _ => true
  | String _ _, EmptyString => false
  | String a prefix', String b s' => Ascii.eqb a b && startswith prefix' s'
  end.

(** A rendered line that lists a method. *)
Definition is_method_line (line : string) : bool :=
  startswith "      + " line.

(** ** File discovery *)

(** A directory as [os.walk] lists it: the names of its subdirectories, in
    listing order, and its file names.  A subdirectory that [os.walk] does
    not descend into (a symbolic link, or a directory whose listing fails,
    which [os.walk] ignores) carries [None]. *)
Inductive dir_tree : Type :=
| DirNode (subdirs : list (string * option dir_tree))
          (filenames : list string).

(** [s.endswith(suffix)] *)
Definition endswith (suffix s : string) : bool :=
  (String.length suffix <=? String.length s)%nat
  && String.eqb
       (String.substring (String.length s - String.length suffix)
          (String.length suffix) s)
       suffix.

(** [os.walk(top)], top-down, for a consumer that prunes the yielded [dirs]
    list in place with [dirs[:] = [d for d in dirs if keep(d)]] before the
    generator is resumed: the triple holds the names as they are yielded, and
    the walk descends into the directories that the consumer kept. *)
Fixpoint os_walk (keep : string -> bool) (root : list string) (t : dir_tree)
  : list (list string * list string * list string) :=
  match t with
  | DirNode subdirs filenames =>
      (root, map fst subdirs, filenames)
      :: (fix descend (l : list (string * option dir_tree)) :=
            match l with
            | [] => []
            | (d, sub) :: l' =>
                (if keep d then
                   match sub with
                   | Some t' => os_walk keep (root ++ [d]) t'
                   | None => []
                   end
                 else [])
                ++ descend l'
            end) subdirs
  end.

(** [d != "__pycache__" and not d.startswith(".")] *)
Definition keep_dir (d : string) : bool :=
  negb (String.eqb d "__pycache__") && negb (startswith "." d).

(** [fn.endswith(".py") and fn != "__init__.py"] *)
Definition keep_file (fn : string) : bool :=
  endswith ".py" fn && negb (String.eqb fn "__init__.py").

(** The paths found, each as its parts below [package_dir]. *)
Definition find_python_files (package_dir : dir_tree) : list (list string) :=
  fold_left
    (fun files '(root, _, filenames) =>
       fold_left
         (fun files fn =>
            if keep_file fn then files ++ [root ++ [fn]] else files)
         filenames files)
    (os_walk keep_dir [] package_dir) [].

(** ** Vocabulary of the further statements *)

(** [file_at t ds fn]: the file [fn] lies in the directory reached from [t]
    through the subdirectories [ds], all of them descended into. *)
Inductive file_at : dir_tree -> list string -> string -> Prop :=
| file_here subdirs filenames fn :
    In fn filenames -> file_at (DirNode subdirs filenames) [] fn
| file_below subdirs filenames d sub ds fn :
    In (d, Some sub) subdirs -> file_at sub ds fn ->
    file_at (DirNode subdirs filenames) (d :: ds) fn.

(** [subnode n t]: the node [n] is [t] or lies below [t]. *)
Inductive subnode : node -> node -> Prop :=
| subnode_refl n : subnode n n
| subnode_child n c t :
    In c (iter_child_nodes t) -> subnode n c -> subnode n t.

(** The paths that [find_python_files] appends for one triple of the walk. *)
Definition found_in (entry : list string * list string * list string)
  : list (list string) :=
  let '(root, _, filenames) := entry in
  map (fun fn => root ++ [fn]) (List.filter keep_file filenames).

(** The string holds no [.]. *)
Fixpoint no_dot (s : string) : bool :=
  match s with
  | EmptyString => true
  | String c s' => negb (Ascii.eqb c "."%char) && no_dot s'
  end.

(** A rendered line that opens the block of a class. *)
Definition is_class_header (line : string) : bool :=
  startswith "    class " line.

(** The path that [write_puml] writes for a package, as printed. *)
Definition output_path (repo_root pkg : string) : string :=
  path_str
    (joinpath (joinpath (parse_path repo_root) "package puml")
       (pkg +:+ ".puml")).




(** [e] below [n] subscripts: [e[0][0]...[0]]. *)
Fixpoint subscripts (n : nat) (e : expr) : expr :=
  match n with
  | 0 => e
  | S n' => Subscript (subscripts n' e) (Constant "0")
  end.

(** [deep.py]: a class whose base is [Base] below 1500 subscripts. *)
Definition file_deep : py_file :=
  mkPyFile ["deep"]
    (inr (Module_ [ClassDef "Deep" [subscripts 1500 (Name "Base")]
                     [OtherNode []]])).

(** A package name of 256 letters: too long for a file name. *)
Definition long_name : string :=
  String.concat "" (repeat "a" 256).

(** A repository with the packages [tiles] and [ui/widgets], the file
    [setup.py], the package [deep] met on the stack left by the default
    recursion limit, and the name that is too long. *)
Definition fs_repo (p : string) : fsnode :=
  if String.eqb p "tiles" then Directory [file_tile]
  else if String.eqb p "ui/widgets" then Directory [file_widget]
  else if String.eqb p "setup.py" then RegularFile
  else if String.eqb p "deep" then DirectoryOnStack 996 [file_deep]
  else if String.eqb p long_name then
    StatFails ("[Errno 36] File name too long: '/repo/" +:+ long_name +:+ "'")
  else Absent.

(** A sink that accepts every file directly in the output directory and
    has no directory below it. *)
Definition sink_flat (out content : string) : option exn :=
  match names (parse_path out) with
  | ["repo"; "package puml"; _] => None
  | _ => Some (FileNotFoundError
                 ("[Errno 2] No such file or directory: '" +:+ out +:+ "'"))
  end.

(** A small package tree: [pkg/{__init__.py, core.py, .hidden.py, notes.txt}],
    [pkg/sub/{util.py}], [pkg/__pycache__/{core.py}], [pkg/.git/{hook.py}],
    and a link [pkg/vendor] that is not followed. *)
Definition sample_tree : dir_tree :=
  DirNode
    [("sub", Some (DirNode [] ["util.py"]));
     ("__pycache__", Some (DirNode [] ["core.py"]));
     (".git", Some (DirNode [] ["hook.py"]));
     ("vendor", None)]
    ["__init__.py"; "core.py"; ".hidden.py"; "notes.txt"].

(** * Properties *)

(** ** Loops that append to an accumulator *)

Section AppendLoops.
Context {A B : Type}.

Lemma fold_left_append (f : A -> list B) (l : list A) (init : list B) :
  fold_left (fun acc x => acc ++ f x) l init = init ++ flat_map f l.
Proof.
  revert init. induction l as [|x l IH]; intros init; simpl.
  - now rewrite app_nil_r.
  - rewrite IH. now rewrite app_assoc.
Qed.

Lemma fold_left_append_gen (step : list B -> A -> list B) (f : A -> list B) :
  (forall acc x, step acc x = acc ++ f x) ->
  forall l init, fold_left step l init = init ++ flat_map f l.
Proof.
  intros Hstep l. induction l as [|x l IH]; intros init; simpl.
  - now rewrite app_nil_r.
  - rewrite IH, Hstep. now rewrite app_assoc.
Qed.

Lemma Permutation_flat_map_pointwise (f g : A -> list B) (l : list A) :
  (forall x, In x l -> Permutation (f x) (g x)) ->
  Permutation (flat_map f l) (flat_map g l).
Proof.
  induction l as [|x l IH]; intros H; simpl.
  - constructor.
  - apply Permutation_app.
    + apply H. now left.
    + apply IH. intros y Hy. apply H. now right.
Qed.
End AppendLoops.

(** ** The order on strings *)

Lemma ascii_compare_refl (a : ascii) : Ascii.compare a a = Eq.
Proof. unfold Ascii.compare. apply N.compare_refl. Qed.

Lemma ascii_compare_lt_trans (a b c : ascii) :
  Ascii.compare a b = Lt -> Ascii.compare b c = Lt -> Ascii.compare a c = Lt.
Proof.
  unfold Ascii.compare. rewrite !N.compare_lt_iff. lia.
Qed.

Lemma string_compare_lt_trans (s1 s2 s3 : string) :
  String.compare s1 s2 = Lt -> String.compare s2 s3 = Lt ->
  String.compare s1 s3 = Lt.
Proof.
  revert s2 s3. induction s1 as [|a s1 IH]; intros [|b s2] [|c s3]; simpl;
    try congruence.
  destruct (Ascii.compare a b) eqn:Hab; try congruence;
    destruct (Ascii.compare b c) eqn:Hbc; try congruence; intros H12 H23.
  - apply Ascii.compare_eq_iff in Hab, Hbc. subst.
    rewrite ascii_compare_refl. eauto.
  - apply Ascii.compare_eq_iff in Hab. subst. now rewrite Hbc.
  - apply Ascii.compare_eq_iff in Hbc. subst. now rewrite Hab.
  - now rewrite (ascii_compare_lt_trans a b c).
Qed.

Lemma string_compare_refl (s : string) : String.compare s s = Eq.
Proof.
  induction s as [|a s IH]; simpl; [reflexivity|].
  now rewrite ascii_compare_refl.
Qed.

Lemma str_le_refl (s : string) : str_le s s.
Proof. unfold str_le, String.leb. now rewrite string_compare_refl. Qed.

Lemma str_le_trans (s1 s2 s3 : string) :
  str_le s1 s2 -> str_le s2 s3 -> str_le s1 s3.
Proof.
  unfold str_le, String.leb.
  destruct (String.compare s1 s2) eqn:H12; try discriminate;
    destruct (String.compare s2 s3) eqn:H23; try discriminate; intros _ _.
  - apply String.compare_eq_iff in H12, H23. subst.
    now rewrite string_compare_refl.
  - apply String.compare_eq_iff in H12. subst. now rewrite H23.
  - apply String.compare_eq_iff in H23. subst. now rewrite H12.
  - now rewrite (string_compare_lt_trans s1 s2 s3).
Qed.

Lemma str_le_total (s1 s2 : string) : str_le s1 s2 \/ str_le s2 s1.
Proof. apply String.leb_total. Qed.

Lemma str_le_antisym (s1 s2 : string) : str_le s1 s2 -> str_le s2 s1 -> s1 = s2.
Proof. apply String.leb_antisym. Qed.

(** ** The sort *)

Section Sorting.
Context {A : Type} (key : A -> string).

Lemma insert_by_perm (x : A) (l : list A) :
  Permutation (insert_by key x l) (x :: l).
Proof.
  induction l as [|y l IH]; simpl.
  - reflexivity.
  - destruct (String.leb (key x) (key y)).
    + reflexivity.
    + rewrite IH. apply perm_swap.
Qed.

Lemma sorted_perm (l : list A) : Permutation (sorted key l) l.
Proof.
  induction l as [|x l IH]; simpl.
  - constructor.
  - rewrite insert_by_perm. now constructor.
Qed.

Lemma sorted_length (l : list A) : length (sorted key l) = length l.
Proof. apply Permutation_length, sorted_perm. Qed.

Lemma insert_by_strongly_sorted (x : A) (l : list A) :
  StronglySorted (key_le key) l -> StronglySorted (key_le key) (insert_by key x l).
Proof.
  induction l as [|y l IH]; intros Hl; simpl.
  - repeat constructor.
  - apply StronglySorted_inv in Hl as [Hl Hy].
    destruct (String.leb (key x) (key y)) eqn:Hxy.
    + constructor; [now constructor|].
      constructor; [exact Hxy|].
      eapply List.Forall_impl; [|exact Hy].
      intros z Hz. unfold key_le in *. eapply str_le_trans; eauto.
    + constructor; [now apply IH|].
      eapply Permutation_Forall;
        [symmetry; apply insert_by_perm|].
      constructor; [|exact Hy].
      unfold key_le. destruct (str_le_total (key x) (key y)) as [H|H];
        [unfold str_le in H; congruence|exact H].
Qed.

Lemma sorted_strongly_sorted (l : list A) :
  StronglySorted (key_le key) (sorted key l).
Proof.
  induction l as [|x l IH]; simpl.
  - constructor.
  - now apply insert_by_strongly_sorted.
Qed.
End Sorting.

(** With pairwise distinct keys the sorted list is the same for every order
    of the input: the order in which a dict yields its items does not reach
    [sorted(d.items())]. *)
Section SortedUnique.
Context {A : Type} (key : A -> string).

Lemma key_injective_on (l : list A) (x y : A) :
  List.NoDup (map key l) -> In x l -> In y l -> key x = key y -> x = y.
Proof.
  induction l as [|a l IH]; simpl; [intros _ []|].
  intros Hnd Hx Hy Hk. apply List.NoDup_cons_iff in Hnd as [Ha Hnd].
  destruct Hx as [->|Hx], Hy as [->|Hy]; auto.
  - exfalso. apply Ha. rewrite Hk. now apply in_map.
  - exfalso. apply Ha. rewrite <- Hk. now apply in_map.
Qed.

Lemma head_le_all (x : A) (l : list A) (y : A) :
  StronglySorted (key_le key) (x :: l) -> In y (x :: l) ->
  str_le (key x) (key y).
Proof.
  intros Hs Hy. apply StronglySorted_inv in Hs as [_ Hx].
  destruct Hy as [<-|Hy]; [apply str_le_refl|].
  rewrite List.Forall_forall in Hx. now apply Hx.
Qed.

Lemma strongly_sorted_perm_unique (l l' : list A) :
  StronglySorted (key_le key) l -> StronglySorted (key_le key) l' ->
  Permutation l l' -> List.NoDup (map key l) -> l = l'.
Proof.
  revert l'. induction l as [|x l IH]; intros l' Hs Hs' Hperm Hnd.
  - apply Permutation_nil in Hperm. now subst.
  - destruct l' as [|y l'].
    { symmetry in Hperm. now apply Permutation_nil in Hperm. }
    assert (Hy : In y (x :: l)).
    { eapply Permutation_in; [symmetry; exact Hperm|now left]. }
    assert (Hx : In x (y :: l')).
    { eapply Permutation_in; [exact Hperm|now left]. }
    assert (Heq : x = y).
    { apply (key_injective_on (x :: l)); [exact Hnd|now left|exact Hy|].
      apply str_le_antisym; eapply head_le_all; eauto. }
    subst y. f_equal. apply IH.
    + now apply StronglySorted_inv in Hs.
    + now apply StronglySorted_inv in Hs'.
    + now apply Permutation_cons_inv in Hperm.
    + simpl in Hnd. now apply List.NoDup_cons_iff in Hnd.
Qed.

Lemma sorted_order_independent (l l' : list A) :
  Permutation l l' -> List.NoDup (map key l) ->
  sorted key l = sorted key l'.
Proof.
  intros Hperm Hnd. apply strongly_sorted_perm_unique.
  - apply sorted_strongly_sorted.
  - apply sorted_strongly_sorted.
  - now rewrite !sorted_perm.
  - eapply Permutation_NoDup; [|exact Hnd].
    apply Permutation_map. symmetry. apply sorted_perm.
Qed.
End SortedUnique.

Lemma sorted_items_any_order (d : gmap string (list ClassInfo))
    (items : list (string * list ClassInfo)) :
  Permutation items (map_to_list d) ->
  sorted fst items = sorted fst (map_to_list d).
Proof.
  intros Hperm. apply sorted_order_independent; [exact Hperm|].
  eapply Permutation_NoDup; [apply Permutation_map; symmetry; exact Hperm|].
  apply NoDup_ListNoDup, NoDup_fst_map_to_list.
Qed.

(** ** The tree walk visits every node: the fuel never runs out *)

Lemma node_size_children (n : node) :
  node_size n = S (nodes_size (iter_child_nodes n)).
Proof.
  assert (Hs : forall l,
    (fix sizes (l : list node) : nat :=
       match l with
       | [] => 0
       | x :: l' => node_size x + sizes l'
       end) l = nodes_size l).
  { induction l as [|x l IH]; simpl; [reflexivity|]. now rewrite IH. }
  destruct n; simpl; now rewrite Hs.
Qed.

Lemma nodes_size_app (l1 l2 : list node) :
  nodes_size (l1 ++ l2) = nodes_size l1 + nodes_size l2.
Proof. induction l1 as [|x l1 IH]; simpl; [reflexivity|]. rewrite IH. lia. Qed.

Lemma walk_loop_length (fuel : nat) (todo : list node) :
  nodes_size todo <= fuel -> length (walk_loop fuel todo) = nodes_size todo.
Proof.
  revert todo. induction fuel as [|fuel IH]; intros [|n rest] H; simpl in *;
    try reflexivity.
  - rewrite node_size_children in H. lia.
  - rewrite node_size_children in *. simpl. f_equal.
    rewrite IH; rewrite nodes_size_app; lia.
Qed.

Lemma walk_loop_enough_fuel (fuel : nat) (todo : list node) :
  nodes_size todo <= fuel ->
  walk_loop fuel todo = walk_loop (nodes_size todo) todo.
Proof.
  revert todo. induction fuel as [|fuel IH]; intros [|n rest] H; simpl in *;
    try reflexivity.
  - rewrite node_size_children in H. lia.
  - rewrite node_size_children in *. simpl. f_equal.
    rewrite IH by (rewrite nodes_size_app; lia).
    f_equal. rewrite nodes_size_app. lia.
Qed.

Lemma walk_length (tree : node) : length (walk tree) = node_size tree.
Proof.
  unfold walk. rewrite walk_loop_length; simpl; lia.
Qed.

(** ** The loops, in closed form *)

Lemma class_bases_spec (bs : list expr) :
  class_bases bs =
  List.filter (fun s => negb (String.eqb s "")) (omap _base_name bs).
Proof.
  unfold class_bases.
  rewrite (fold_left_append_gen _
             (fun b => match _base_name b with
                       | Some s => if String.eqb s "" then [] else [s]
                       | None => []
                       end)).
  - simpl. induction bs as [|b bs IH]; simpl; [reflexivity|].
    destruct (_base_name b) as [s|]; simpl; [|exact IH].
    destruct (String.eqb s ""); simpl; now rewrite IH.
  - intros acc b. destruct (_base_name b) as [s|];
      [destruct (String.eqb s "")|]; now rewrite ?app_nil_r.
Qed.

Lemma class_methods_spec (body : list node) :
  class_methods body =
  flat_map (fun n => match n with FunctionDef nm _ => [nm] | _ => [] end) body.
Proof.
  unfold class_methods.
  rewrite (fold_left_append_gen _
             (fun n => match n with FunctionDef nm _ => [nm] | _ => [] end));
    [reflexivity|].
  intros acc n. destruct n; now rewrite ?app_nil_r.
Qed.

Lemma parse_classes_spec (f : py_file) :
  parse_classes f =
  match read_and_parse f with
  | inl _ => []
  | inr tree => flat_map (class_of_node (module_str f)) (walk tree)
  end.
Proof.
  unfold parse_classes. destruct (read_and_parse f) as [e|tree];
    [reflexivity|].
  rewrite (fold_left_append_gen _ (class_of_node (module_str f)));
    [reflexivity|].
  intros acc n. destruct n; simpl; now rewrite ?app_nil_r.
Qed.

Lemma collect_classes_spec (py_files : list py_file) :
  collect_classes py_files = flat_map parse_classes py_files.
Proof. unfold collect_classes. now rewrite fold_left_append. Qed.

Lemma parse_classes_module (f : py_file) (c : ClassInfo) :
  In c (parse_classes f) -> module c = module_str f.
Proof.
  rewrite parse_classes_spec. destruct (read_and_parse f) as [e|tree];
    [intros []|].
  rewrite in_flat_map. intros (n & _ & Hc).
  destruct n; simpl in Hc; try contradiction.
  destruct Hc as [<-|[]]. reflexivity.
Qed.

(** ** The two indexes *)

Lemma index_lookup (key : ClassInfo -> string) (l : list ClassInfo)
    (d : gmap string (list ClassInfo)) (k : string) :
  fold_left (fun d c => setdefault_append (key c) c d) l d !! k =
  match List.filter (fun c => String.eqb (key c) k) l with
  | [] => d !! k
  | found => Some (default [] (d !! k) ++ found)
  end.
Proof.
  revert d. induction l as [|x l IH]; intros d; simpl; [reflexivity|].
  rewrite IH. unfold setdefault_append.
  destruct (String.eqb_spec (key x) k) as [->|Hne].
  - rewrite lookup_insert_eq. simpl.
    destruct (List.filter _ l); [reflexivity|].
    now rewrite <- app_assoc.
  - rewrite lookup_insert_ne by exact Hne. reflexivity.
Qed.

Lemma by_simple_lookup (all_classes : list ClassInfo) (b : string) :
  default [] (by_simple all_classes !! b) = targets all_classes b.
Proof.
  unfold by_simple, targets. rewrite index_lookup, lookup_empty.
  now destruct (List.filter _ all_classes).
Qed.

Lemma by_module_lookup (all_classes : list ClassInfo) (m : string) :
  by_module all_classes !! m =
  match List.filter (fun c => String.eqb (module c) m) all_classes with
  | [] => None
  | found => Some found
  end.
Proof.
  unfold by_module. rewrite index_lookup, lookup_empty.
  now destruct (List.filter _ all_classes).
Qed.

(** ** The inheritance section, in closed form *)

Lemma base_edges_spec (index : gmap string (list ClassInfo)) (c : ClassInfo)
    (lines : list string) (b : string) :
  base_edges index c lines b =
  lines ++ map (edge_line c) (default [] (index !! b)).
Proof.
  unfold base_edges.
  rewrite (fold_left_append (fun t => [edge_line c t])).
  f_equal.
Qed.

Lemma class_edges_spec (all_classes : list ClassInfo) (lines : list string)
    (c : ClassInfo) :
  class_edges (by_simple all_classes) lines c =
  lines ++ edges_of all_classes c.
Proof.
  unfold class_edges, edges_of.
  apply fold_left_append_gen. intros acc b.
  now rewrite base_edges_spec, by_simple_lookup.
Qed.

Lemma render_lines_spec (package_name : string) (all_classes : list ClassInfo) :
  render_lines package_name all_classes =
  container_lines package_name all_classes
  ++ flat_map (edges_of all_classes) all_classes ++ ["@enduml"].
Proof.
  unfold render_lines.
  rewrite (fold_left_append_gen _ (edges_of all_classes)).
  - now rewrite <- app_assoc.
  - intros acc c. apply class_edges_spec.
Qed.

(** ** Name resolver *)

Lemma attribute_loop_parts (cur : expr) (parts : list string) :
  exists extra, fst (attribute_loop parts cur) = parts ++ extra.
Proof.
  revert parts. induction cur; intros parts; simpl;
    try (exists []; now rewrite app_nil_r).
  destruct (IHcur (parts ++ [attr])) as [extra ->].
  exists (attr :: extra). now rewrite <- app_assoc.
Qed.

Lemma base_name_attribute (value : expr) (attr : string) :
  _base_name (Attribute value attr) = Some attr.
Proof.
  simpl. destruct (attribute_loop_parts value [attr]) as [extra Hextra].
  destruct (attribute_loop [attr] value) as [parts cur]. simpl in Hextra.
  subst parts.
  assert (H : forall l : list string, last (rev (attr :: l)) = Some attr).
  { intros l. simpl. apply last_snoc. }
  destruct cur; apply H.
Qed.

(** [a.b.C] resolves to [C], and [typing.Generic[T]] to [Generic]. *)
Example base_name_dotted :
  _base_name (Attribute (Attribute (Name "a") "b") "C") = Some "C".
Proof. reflexivity. Qed.

Example base_name_subscript :
  _base_name (Subscript (Attribute (Name "typing") "Generic") (Name "T"))
  = Some "Generic".
Proof. reflexivity. Qed.

(** C5: the name resolver returns the identifier itself for a bare
    identifier, the rightmost segment for a dotted attribute chain, the
    resolution of the value part for a subscripted expression, and nothing
    for every other shape of expression. *)
Theorem C5_base_name_by_shape (e : expr) :
  match e with
  | Name id => _base_name e = Some id
  | Attribute _ attr => _base_name e = Some attr
  | Subscript value _ => _base_name e = _base_name value
  | Call _ _ | Constant _ | OtherExpr => _base_name e = None
  end.
Proof.
  destruct e; try reflexivity. apply base_name_attribute.
Qed.

(** ** Class extractor *)

(** C9: a file whose reading or parsing raises contributes the empty list
    of records, and the records collected from the other files of the
    package are what they are without it. *)
Theorem C9_failed_file_contributes_nothing (f : py_file) (e : exn) :
  read_and_parse f = inl e ->
  parse_classes f = [] /\
  forall before after : list py_file,
    collect_classes (before ++ f :: after) = collect_classes (before ++ after).
Proof.
  intros Hf.
  assert (Hnil : parse_classes f = []).
  { unfold parse_classes. now rewrite Hf. }
  split; [exact Hnil|].
  intros before after. rewrite !collect_classes_spec, !flat_map_app.
  simpl. now rewrite Hnil.
Qed.

Lemma C9_failed_file_contributes_nothing_witness :
  parse_classes broken_file = [] /\
  forall before after : list py_file,
    collect_classes (before ++ broken_file :: after)
    = collect_classes (before ++ after).
Proof.
  apply (C9_failed_file_contributes_nothing broken_file
           (SyntaxError "invalid syntax")).
  reflexivity.
Defined.

(** ** Inheritance edges *)

Lemma edges_of_in (all_classes : list ClassInfo) (c t : ClassInfo) :
  In t all_classes -> In (name t) (bases c) ->
  In (edge_line c t) (edges_of all_classes c).
Proof.
  intros Ht Hb. unfold edges_of. apply in_flat_map.
  exists (name t). split; [exact Hb|].
  apply in_map. unfold targets. apply filter_In. split; [exact Ht|].
  apply String.eqb_refl.
Qed.

Lemma render_lines_edge (package_name : string) (all_classes : list ClassInfo)
    (c : ClassInfo) (line : string) :
  In c all_classes -> In line (edges_of all_classes c) ->
  In line (render_lines package_name all_classes).
Proof.
  intros Hc Hline. rewrite render_lines_spec.
  apply in_or_app. right. apply in_or_app. left.
  apply in_flat_map. eauto.
Qed.

(** C7: when no record of the run has the simple name of a declared base,
    the loop over that base appends no edge line, and the build returns its
    document. *)
Theorem C7_unmatched_base_no_edge (fs : string -> fsnode)
    (package_name root : string) (py_files : list py_file)
    (c : ClassInfo) (b : string) (lines : list string) :
  fs package_name = Directory py_files ->
  In c (collect_classes py_files) ->
  In b (bases c) ->
  targets (collect_classes py_files) b = [] ->
  base_edges (by_simple (collect_classes py_files)) c lines b = lines /\
  build_puml_for_package fs package_name root =
    inr (String.concat newline
           (render_lines package_name (collect_classes py_files)),
         collect_classes py_files).
Proof.
  intros Hfs _ _ Hnone. split.
  - rewrite base_edges_spec, by_simple_lookup, Hnone. simpl.
    apply app_nil_r.
  - unfold build_puml_for_package. now rewrite Hfs.
Qed.

(** C10: a record that declares a base equal to its own simple name is
    among the targets found for that base, so the document has the edge
    from its alias to its own alias, next to the edges to every other
    record of that name. *)
Theorem C10_self_named_base_self_loop (package_name : string)
    (all_classes : list ClassInfo) (c : ClassInfo) :
  In c all_classes ->
  In (name c) (bases c) ->
  In c (default [] (by_simple all_classes !! name c)) /\
  In (alias c +:+ " --|> " +:+ alias c)
     (render_lines package_name all_classes) /\
  forall t, In t all_classes -> name t = name c ->
            In (alias c +:+ " --|> " +:+ alias t)
               (render_lines package_name all_classes).
Proof.
  intros Hc Hb. split; [|split].
  - rewrite by_simple_lookup. unfold targets. apply filter_In.
    split; [exact Hc|apply String.eqb_refl].
  - apply (render_lines_edge _ _ c); [exact Hc|].
    now apply (edges_of_in all_classes c c).
  - intros t Ht Hname. apply (render_lines_edge _ _ c); [exact Hc|].
    apply (edges_of_in all_classes c t); [exact Ht|]. now rewrite Hname.
Qed.

(** ** Package build and batch driver *)



(** *** Loops that may raise *)




(** *** The name resolver on a bounded stack *)








(** *** One package of a batch *)

Lemma main_step_failed (fs : string -> fsnode)
    (sink : string -> string -> option exn) (repo_root : string)
    (w : world) (pkg : string) (e : exn) :
  build_puml_for_package fs pkg repo_root = inl e ->
  main_step fs sink repo_root w pkg =
  mkWorld (written w)
    (stdout w ++ ["Failed to generate for '" +:+ pkg +:+ "': " +:+ exn_str e]).
Proof. intros H. unfold main_step. now rewrite H. Qed.

Lemma main_step_unsaved (fs : string -> fsnode)
    (sink : string -> string -> option exn) (repo_root : string)
    (w : world) (pkg content : string) (classes : list ClassInfo) (e : exn) :
  build_puml_for_package fs pkg repo_root = inr (content, classes) ->
  sink (output_path repo_root pkg) content = Some e ->
  main_step fs sink repo_root w pkg =
  mkWorld (written w)
    (stdout w ++ ["Failed to generate for '" +:+ pkg +:+ "': " +:+ exn_str e]).
Proof.
  intros Hbuild Hsink. unfold main_step, write_puml. rewrite Hbuild.
  cbn [bind fst snd]. fold (output_path repo_root pkg). now rewrite Hsink.
Qed.

Lemma main_step_saved (fs : string -> fsnode)
    (sink : string -> string -> option exn) (repo_root : string)
    (w : world) (pkg content : string) (classes : list ClassInfo) :
  build_puml_for_package fs pkg repo_root = inr (content, classes) ->
  sink (output_path repo_root pkg) content = None ->
  main_step fs sink repo_root w pkg =
  mkWorld (written w ++ [(output_path repo_root pkg, content)])
    (stdout w ++
     ["Generated " +:+ output_path repo_root pkg +:+ " with "
      +:+ pretty (length classes) +:+ " classes"]).
Proof.
  intros Hbuild Hsink. unfold main_step, write_puml. rewrite Hbuild.
  cbn [bind fst snd]. fold (output_path repo_root pkg). now rewrite Hsink.
Qed.


Lemma main_app (fs : string -> fsnode)
    (sink : string -> string -> option exn) (repo_root : string)
    (before after : list string) (w : world) :
  main fs sink repo_root (before ++ after) w =
  main fs sink repo_root after (main fs sink repo_root before w).
Proof. unfold main. apply fold_left_app. Qed.




(** ** Class blocks *)

Lemma class_block_spec (lines : list string) (c : ClassInfo) :
  class_block lines c =
  lines ++ [class_header c]
  ++ map method_line (take 12 (sorted id (methods c)))
  ++ (if (12 <? length (methods c))%nat then [elision_line] else [])
  ++ [class_close].
Proof.
  unfold class_block.
  rewrite (fold_left_append (fun m => [method_line m])).
  replace (flat_map (fun m => [method_line m]) (take 12 (sorted id (methods c))))
    with (map method_line (take 12 (sorted id (methods c))))
    by (induction (take 12 (sorted id (methods c))) as [|m ms IH]; simpl;
        [reflexivity|now rewrite IH]).
  destruct (12 <? length (methods c))%nat; simpl;
    rewrite <- ?app_assoc; simpl; rewrite <- ?app_assoc; reflexivity.
Qed.

Lemma filter_method_lines (ms : list string) (rest : list string) :
  List.filter is_method_line (map method_line ms ++ rest) =
  map method_line ms ++ List.filter is_method_line rest.
Proof.
  induction ms as [|m ms IH]; [reflexivity|].
  assert (Hm : is_method_line (method_line m) = true) by reflexivity.
  cbn [map app List.filter]. now rewrite Hm, IH.
Qed.

Lemma elision_not_method_line (ms : list string) :
  ~ In elision_line (map method_line ms).
Proof.
  rewrite in_map_iff. intros (m & H & _). discriminate H.
Qed.

(** C4: a class with more than 12 methods is rendered with exactly 12
    method lines, those of the 12 smallest names in ascending order, then
    one elision line; a class with at most 12 methods is rendered with all
    of them, in ascending order, and without an elision line. *)
Theorem C4_method_lines_capped_at_12 (lines : list string) (c : ClassInfo) :
  (12 < length (methods c) ->
   exists shown hidden block,
     class_block lines c = lines ++ block /\
     block = [class_header c] ++ map method_line shown
             ++ [elision_line; class_close] /\
     length shown = 12 /\
     Permutation (shown ++ hidden) (methods c) /\
     StronglySorted str_le (shown ++ hidden) /\
     length (List.filter is_method_line block) = 12 /\
     count_occ string_dec block elision_line = 1) /\
  (length (methods c) <= 12 ->
   exists shown block,
     class_block lines c = lines ++ block /\
     block = [class_header c] ++ map method_line shown ++ [class_close] /\
     Permutation shown (methods c) /\
     StronglySorted str_le shown /\
     length (List.filter is_method_line block) = length (methods c) /\
     ~ In elision_line block).
Proof.
  pose proof (sorted_perm id (methods c)) as Hperm.
  pose proof (sorted_strongly_sorted id (methods c)) as Hsorted.
  pose proof (sorted_length id (methods c)) as Hlen.
  change (StronglySorted str_le (sorted id (methods c))) in Hsorted.
  split; intros Hn.
  - exists (take 12 (sorted id (methods c))),
           (drop 12 (sorted id (methods c))).
    eexists. split; [|split; [reflexivity|]].
    + rewrite class_block_spec.
      destruct (Nat.ltb_spec 12 (length (methods c))) as [_|Hle]; [|lia].
      reflexivity.
    + rewrite firstn_skipn.
      assert (Hshown : length (take 12 (sorted id (methods c))) = 12).
      { rewrite length_firstn, Hlen. lia. }
      repeat split; try assumption.
      * cbn [app List.filter]. rewrite filter_method_lines. simpl.
        rewrite app_nil_r, length_map. exact Hshown.
      * cbn [app]. rewrite count_occ_cons_neq by discriminate.
        rewrite count_occ_app.
        rewrite (proj1 (count_occ_not_In string_dec _ _)
                   (elision_not_method_line _)).
        reflexivity.
  - exists (sorted id (methods c)). eexists.
    split; [|split; [reflexivity|]].
    + rewrite class_block_spec.
      destruct (Nat.ltb_spec 12 (length (methods c))) as [Hlt|_]; [lia|].
      rewrite firstn_all2 by lia. reflexivity.
    + repeat split; try assumption.
      * cbn [app List.filter]. rewrite filter_method_lines. simpl.
        rewrite app_nil_r, length_map. exact Hlen.
      * cbn [app]. intros [H|H]; [discriminate H|].
        apply in_app_or in H as [H|[H|[]]];
          [now apply elision_not_method_line in H|discriminate H].
Qed.

(** ** Base identifiers of a record *)

Lemma count_occ_class_bases (bs : list expr) (x : string) :
  x <> "" ->
  count_occ string_dec (class_bases bs) x =
  length (List.filter (fun b => bool_decide (_base_name b = Some x)) bs).
Proof.
  intros Hx. rewrite class_bases_spec.
  induction bs as [|b bs IH]; simpl; [reflexivity|].
  destruct (_base_name b) as [s|] eqn:Hb; simpl.
  - destruct (String.eqb_spec s "") as [->|Hs]; simpl.
    + rewrite bool_decide_eq_false_2 by congruence. exact IH.
    + destruct (string_dec s x) as [->|Hne].
      * rewrite bool_decide_eq_true_2 by reflexivity. simpl.
        f_equal. exact IH.
      * rewrite bool_decide_eq_false_2 by congruence. exact IH.
  - exact IH.
Qed.

(** C3, as the code has it: the bases of an extracted record are the
    identifiers resolved from the declared base expressions of its class
    statement, in declaration order and once per resolving expression, so an
    identifier resolved from several expressions is repeated; expressions
    that resolve to nothing contribute nothing. *)
Theorem C3_bases_resolved_in_order (f : py_file) (c : ClassInfo) :
  In c (parse_classes f) ->
  exists tree nm bs body,
    read_and_parse f = inr tree /\
    In (ClassDef nm bs body) (walk tree) /\
    c = mkClassInfo (module_str f) nm (class_bases bs) (class_methods body) /\
    bases c =
      List.filter (fun s => negb (String.eqb s "")) (omap _base_name bs) /\
    forall x, x <> "" ->
      count_occ string_dec (bases c) x =
      length (List.filter (fun b => bool_decide (_base_name b = Some x)) bs).
Proof.
  rewrite parse_classes_spec.
  destruct (read_and_parse f) as [e|tree]; [intros []|].
  rewrite in_flat_map. intros (n & Hn & Hc).
  destruct n as [| nm bs body | | |]; simpl in Hc; try contradiction.
  destruct Hc as [<-|[]].
  exists tree, nm, bs, body. repeat split; try assumption; simpl.
  - apply class_bases_spec.
  - intros x Hx. now apply count_occ_class_bases.
Qed.

(** ** Edges of one declared base *)

Lemma append_inv_head (s x y : string) : s +:+ x = s +:+ y -> x = y.
Proof.
  induction s as [|a s IH]; simpl; intros H; [exact H|].
  injection H as H. now apply IH.
Qed.

Lemma edge_line_inv (c t t' : ClassInfo) :
  edge_line c t = edge_line c t' -> alias t = alias t'.
Proof.
  unfold edge_line. intros H.
  apply append_inv_head in H. now apply (append_inv_head " --|> ") in H.
Qed.

Lemma targets_in (all_classes : list ClassInfo) (b : string) (t : ClassInfo) :
  In t (targets all_classes b) <-> In t all_classes /\ name t = b.
Proof.
  unfold targets. rewrite filter_In. now rewrite String.eqb_eq.
Qed.

Lemma count_edges_of_base (all_classes : list ClassInfo) (c t : ClassInfo)
    (b : string) (bs : list string) :
  List.NoDup (map alias all_classes) ->
  targets all_classes b = [t] ->
  count_occ string_dec
    (flat_map (fun b' => map (edge_line c) (targets all_classes b')) bs)
    (edge_line c t)
  = count_occ string_dec bs b.
Proof.
  intros Hnd Ht.
  assert (Htin : In t all_classes /\ name t = b).
  { apply targets_in. rewrite Ht. now left. }
  induction bs as [|b' bs IH]; [reflexivity|].
  cbn [flat_map]. rewrite count_occ_app, IH.
  destruct (string_dec b' b) as [->|Hne].
  - rewrite Ht, count_occ_cons_eq by reflexivity.
    cbn [map]. now rewrite count_occ_cons_eq by reflexivity.
  - rewrite count_occ_cons_neq by exact Hne.
    rewrite (proj1 (count_occ_not_In string_dec _ _)); [reflexivity|].
    rewrite in_map_iff. intros (t' & Heq & Ht').
    apply targets_in in Ht' as [Ht' Hname].
    apply edge_line_inv in Heq.
    assert (t' = t) by (eapply (key_injective_on alias); eauto; tauto).
    subst t'. destruct Htin as [_ Hb]. congruence.
Qed.

(** C6, as the code has it: when exactly one record of the run has the
    simple name of a declared base, each occurrence of that base in the
    bases of the declaring record appends exactly one edge line, from the
    alias of the declaring record to the alias of the matching record; with
    pairwise distinct aliases, the lines appended for the declaring record
    hold that edge as many times as the base occurs in its bases, once when
    it occurs once. *)
Theorem C6_one_edge_per_declared_occurrence (package_name : string)
    (all_classes : list ClassInfo) (c t : ClassInfo) (b : string) :
  In c all_classes ->
  List.NoDup (map alias all_classes) ->
  targets all_classes b = [t] ->
  (forall lines,
     base_edges (by_simple all_classes) c lines b =
     lines ++ [alias c +:+ " --|> " +:+ alias t]) /\
  count_occ string_dec (class_edges (by_simple all_classes) [] c)
    (alias c +:+ " --|> " +:+ alias t)
  = count_occ string_dec (bases c) b /\
  (count_occ string_dec (bases c) b = 1 ->
   count_occ string_dec (class_edges (by_simple all_classes) [] c)
     (alias c +:+ " --|> " +:+ alias t) = 1) /\
  exists before after,
    render_lines package_name all_classes =
    before ++ class_edges (by_simple all_classes) [] c ++ after.
Proof.
  intros Hc Hnd Ht.
  assert (Hcount :
    count_occ string_dec (class_edges (by_simple all_classes) [] c)
      (alias c +:+ " --|> " +:+ alias t)
    = count_occ string_dec (bases c) b).
  { rewrite class_edges_spec. simpl.
    now apply (count_edges_of_base all_classes c t b). }
  split; [|split; [exact Hcount|split]].
  - intros lines. now rewrite base_edges_spec, by_simple_lookup, Ht.
  - intros H1. now rewrite Hcount.
  - apply in_split in Hc as (l1 & l2 & Hsplit).
    assert (Hflat : forall g : ClassInfo -> list string,
      flat_map g all_classes = flat_map g l1 ++ g c ++ flat_map g l2).
    { intros g. now rewrite Hsplit, flat_map_app. }
    exists (container_lines package_name all_classes
            ++ flat_map (edges_of all_classes) l1),
           (flat_map (edges_of all_classes) l2 ++ ["@enduml"]).
    rewrite render_lines_spec, class_edges_spec, Hflat. simpl.
    now rewrite <- !app_assoc.
Qed.

(** ** Discovery order *)

Lemma Permutation_list_filter {A : Type} (p : A -> bool) (l l' : list A) :
  Permutation l l' -> Permutation (List.filter p l) (List.filter p l').
Proof.
  induction 1 as [|x l l' _ IH|x y l|l l' l'' _ IH1 _ IH2]; simpl.
  - constructor.
  - destruct (p x); [now constructor|exact IH].
  - destruct (p x), (p y); try reflexivity. apply perm_swap.
  - now transitivity (List.filter p l').
Qed.

Lemma filter_module_other (f : py_file) (m : string) :
  module_str f <> m ->
  List.filter (fun c => String.eqb (module c) m) (parse_classes f) = [].
Proof.
  intros Hne.
  assert (H : forall c, In c (parse_classes f) -> module c = module_str f)
    by apply parse_classes_module.
  induction (parse_classes f) as [|c l IH]; simpl; [reflexivity|].
  rewrite (H c) by now left.
  destruct (String.eqb_spec (module_str f) m) as [Heq|_]; [contradiction|].
  apply IH. intros c' Hc'. apply H. now right.
Qed.

Lemma filter_module_perm (m : string) (py_files py_files' : list py_file) :
  Permutation py_files py_files' ->
  List.NoDup (map module_str py_files) ->
  List.filter (fun c => String.eqb (module c) m)
    (flat_map parse_classes py_files)
  = List.filter (fun c => String.eqb (module c) m)
      (flat_map parse_classes py_files').
Proof.
  induction 1 as [|x l l' _ IH|x y l|l l' l'' H1 IH1 _ IH2]; intros Hnd.
  - reflexivity.
  - simpl. rewrite !List.filter_app. f_equal. apply IH.
    simpl in Hnd. now apply List.NoDup_cons_iff in Hnd.
  - simpl. rewrite !List.filter_app.
    simpl in Hnd. apply List.NoDup_cons_iff in Hnd as [Hy _].
    assert (Hxy : module_str x <> module_str y).
    { intros Heq. apply Hy. left. exact Heq. }
    destruct (string_dec (module_str x) m) as [Hx|Hx].
    + now rewrite (filter_module_other y m) by congruence.
    + now rewrite (filter_module_other x m) by exact Hx.
  - rewrite IH1 by exact Hnd. apply IH2.
    eapply Permutation_NoDup; [|exact Hnd]. now apply Permutation_map.
Qed.

Lemma by_module_perm (py_files py_files' : list py_file) :
  Permutation py_files py_files' ->
  List.NoDup (map module_str py_files) ->
  by_module (collect_classes py_files) = by_module (collect_classes py_files').
Proof.
  intros Hperm Hnd. apply map_eq. intros m.
  rewrite !by_module_lookup, !collect_classes_spec.
  now rewrite (filter_module_perm m py_files py_files').
Qed.

Lemma edges_of_perm (all_classes all_classes' : list ClassInfo)
    (c : ClassInfo) :
  Permutation all_classes all_classes' ->
  Permutation (edges_of all_classes c) (edges_of all_classes' c).
Proof.
  intros Hperm. unfold edges_of.
  apply Permutation_flat_map_pointwise. intros b _.
  apply Permutation_map. unfold targets.
  now apply Permutation_list_filter.
Qed.

Lemma edge_section_perm (all_classes all_classes' : list ClassInfo) :
  Permutation all_classes all_classes' ->
  Permutation (flat_map (edges_of all_classes) all_classes)
              (flat_map (edges_of all_classes') all_classes').
Proof.
  intros Hperm.
  transitivity (flat_map (edges_of all_classes') all_classes).
  - apply Permutation_flat_map_pointwise. intros c _.
    now apply edges_of_perm.
  - now apply Permutation_flat_map.
Qed.

(** C1, as the code has it: over two discovery orders of the same files,
    with pairwise distinct module paths, the document is the same up to and
    including the closing brace of the package, and it ends with the same
    edge lines and footer, but the edge lines come in the order in which the
    files were discovered: the two edge sections are permutations of each
    other. *)
Theorem C1_discovery_order (package_name : string)
    (py_files py_files' : list py_file) :
  Permutation py_files py_files' ->
  List.NoDup (map module_str py_files) ->
  container_lines package_name (collect_classes py_files)
  = container_lines package_name (collect_classes py_files') /\
  exists edges edges',
    render_lines package_name (collect_classes py_files) =
      container_lines package_name (collect_classes py_files)
      ++ edges ++ ["@enduml"] /\
    render_lines package_name (collect_classes py_files') =
      container_lines package_name (collect_classes py_files)
      ++ edges' ++ ["@enduml"] /\
    Permutation edges edges'.
Proof.
  intros Hperm Hnd.
  assert (Hcontainer :
    container_lines package_name (collect_classes py_files)
    = container_lines package_name (collect_classes py_files')).
  { unfold container_lines. now rewrite (by_module_perm py_files py_files'). }
  split; [exact Hcontainer|].
  exists (flat_map (edges_of (collect_classes py_files))
            (collect_classes py_files)),
         (flat_map (edges_of (collect_classes py_files'))
            (collect_classes py_files')).
  split; [apply render_lines_spec|].
  split; [rewrite Hcontainer; apply render_lines_spec|].
  apply edge_section_perm. rewrite !collect_classes_spec.
  now apply Permutation_flat_map.
Qed.

(** ** The claims on the sample packages *)

Lemma C1_discovery_order_witness :
  container_lines "shapes" (collect_classes discovery1)
  = container_lines "shapes" (collect_classes discovery2) /\
  exists edges edges',
    render_lines "shapes" (collect_classes discovery1) =
      container_lines "shapes" (collect_classes discovery1)
      ++ edges ++ ["@enduml"] /\
    render_lines "shapes" (collect_classes discovery2) =
      container_lines "shapes" (collect_classes discovery1)
      ++ edges' ++ ["@enduml"] /\
    Permutation edges edges'.
Proof.
  apply (C1_discovery_order "shapes" discovery1 discovery2).
  - apply perm_swap.
  - repeat (apply List.NoDup_cons; [simpl; intuition discriminate|]).
    apply List.NoDup_nil.
Defined.

(** C1 fails as stated: the same three files discovered in two orders give
    two different documents (the two edge lines are swapped). *)
Lemma C1_counterexample :
  Permutation discovery1 discovery2 /\
  String.concat newline (render_lines "shapes" (collect_classes discovery1))
  <> String.concat newline (render_lines "shapes" (collect_classes discovery2)).
Proof.
  split; [apply perm_swap|].
  apply String.eqb_neq. vm_compute. reflexivity.
Qed.

(** C2 fails on the code: two class statements of the same name in one
    file, and two files whose module paths differ only in [.] against [_],
    give records with equal aliases. *)
Theorem C2_alias_collision :
  map alias (collect_classes [file_compat])
  = ["compat_Codec"; "compat_Codec"] /\
  map alias (collect_classes [file_a_slash_b; file_a_underscore_b])
  = ["a_b_C"; "a_b_C"] /\
  ~ List.NoDup (map alias (collect_classes [file_compat])) /\
  ~ List.NoDup
      (map alias (collect_classes [file_a_slash_b; file_a_underscore_b])).
Proof.
  split; [reflexivity|]. split; [reflexivity|].
  split; intros H; vm_compute in H;
    apply List.NoDup_cons_iff in H as [H _]; apply H; now left.
Qed.

Lemma C3_bases_resolved_in_order_witness :
  exists tree nm bs body,
    read_and_parse file_tile = inr tree /\
    In (ClassDef nm bs body) (walk tree) /\
    tile_record =
      mkClassInfo (module_str file_tile) nm (class_bases bs)
        (class_methods body) /\
    bases tile_record =
      List.filter (fun s => negb (String.eqb s "")) (omap _base_name bs) /\
    forall x, x <> "" ->
      count_occ string_dec (bases tile_record) x =
      length (List.filter (fun b => bool_decide (_base_name b = Some x)) bs).
Proof.
  apply (C3_bases_resolved_in_order file_tile tile_record).
  vm_compute. left. reflexivity.
Defined.

(** C3 fails as stated: the record extracted from
    [class Tile(core.Shape, legacy.Shape)] has the base [Shape] twice. *)
Lemma C3_counterexample :
  parse_classes file_tile = [tile_record] /\
  bases tile_record = ["Shape"; "Shape"] /\
  ~ List.NoDup (bases tile_record).
Proof.
  split; [reflexivity|]. split; [reflexivity|].
  intros H. apply List.NoDup_cons_iff in H as [H _]. apply H. now left.
Qed.

Lemma C6_one_edge_per_declared_occurrence_witness :
  (forall lines,
     base_edges (by_simple (collect_classes [file_circle; file_shape]))
       circle_record lines "Shape" =
     lines ++ [alias circle_record +:+ " --|> " +:+ alias shape_record]) /\
  count_occ string_dec
    (class_edges (by_simple (collect_classes [file_circle; file_shape])) []
       circle_record)
    (alias circle_record +:+ " --|> " +:+ alias shape_record)
  = count_occ string_dec (bases circle_record) "Shape" /\
  (count_occ string_dec (bases circle_record) "Shape" = 1 ->
   count_occ string_dec
     (class_edges (by_simple (collect_classes [file_circle; file_shape])) []
        circle_record)
     (alias circle_record +:+ " --|> " +:+ alias shape_record) = 1) /\
  exists before after,
    render_lines "shapes" (collect_classes [file_circle; file_shape]) =
    before
    ++ class_edges (by_simple (collect_classes [file_circle; file_shape])) []
         circle_record
    ++ after.
Proof.
  apply (C6_one_edge_per_declared_occurrence "shapes"
           (collect_classes [file_circle; file_shape])
           circle_record shape_record "Shape").
  - vm_compute. left. reflexivity.
  - vm_compute.
    repeat (apply List.NoDup_cons; [simpl; intuition discriminate|]).
    apply List.NoDup_nil.
  - reflexivity.
Defined.

(** C6 fails as stated: [Tile] declares the base [Shape], which matches
    exactly one other record, and the document has the edge from [Tile] to
    it twice. *)
Lemma C6_counterexample :
  In tile_record (collect_classes [file_tile; file_shape]) /\
  In "Shape" (bases tile_record) /\
  targets (collect_classes [file_tile; file_shape]) "Shape" = [shape_record] /\
  shape_record <> tile_record /\
  count_occ string_dec
    (render_lines "shapes" (collect_classes [file_tile; file_shape]))
    (alias tile_record +:+ " --|> " +:+ alias shape_record) = 2.
Proof.
  split; [vm_compute; left; reflexivity|].
  split; [now left|].
  split; [reflexivity|].
  split; [discriminate|].
  vm_compute. reflexivity.
Qed.

Lemma C7_unmatched_base_no_edge_witness :
  base_edges (by_simple (collect_classes [file_tile])) tile_record [] "Shape"
  = [] /\
  build_puml_for_package fs_tiles "tiles" "/repo" =
    inr (String.concat newline
           (render_lines "tiles" (collect_classes [file_tile])),
         collect_classes [file_tile]).
Proof.
  apply (C7_unmatched_base_no_edge fs_tiles "tiles" "/repo" [file_tile]
           tile_record "Shape" []).
  - reflexivity.
  - vm_compute. left. reflexivity.
  - now left.
  - reflexivity.
Defined.

Lemma C10_self_named_base_self_loop_witness :
  In widget_record
     (default [] (by_simple (collect_classes [file_widget; file_shape])
                  !! name widget_record)) /\
  In (alias widget_record +:+ " --|> " +:+ alias widget_record)
     (render_lines "ui" (collect_classes [file_widget; file_shape])) /\
  forall t, In t (collect_classes [file_widget; file_shape]) ->
            name t = name widget_record ->
            In (alias widget_record +:+ " --|> " +:+ alias t)
               (render_lines "ui" (collect_classes [file_widget; file_shape])).
Proof.
  apply (C10_self_named_base_self_loop "ui"
           (collect_classes [file_widget; file_shape]) widget_record).
  - vm_compute. left. reflexivity.
  - now left.
Defined.

(** A class with 15 methods: the 12 smallest names, then the elision line. *)
Example class_block_of_15_methods :
  class_block []
    (mkClassInfo "m" "K" []
       ["n"; "m"; "l"; "k"; "j"; "i"; "h"; "g"; "f"; "e"; "d"; "c"; "b"; "a";
        "Z"])
  = ["    class " +:+ dquote +:+ "m.K" +:+ dquote +:+ " as m_K {";
     "      + Z()"; "      + a()"; "      + b()"; "      + c()";
     "      + d()"; "      + e()"; "      + f()"; "      + g()";
     "      + h()"; "      + i()"; "      + j()"; "      + k()";
     "      .. (more) .."; "    }"].
Proof. reflexivity. Qed.

(** A batch in which four packages fail, by a missing directory, a regular
    file, a resolver that runs out of stack and a write below a directory
    that does not exist: the package after them is still generated. *)
Example batch_goes_on_after_failure :
  main fs_repo sink_flat "/repo"
    ["nope"; "setup.py"; "deep"; "ui/widgets"; "tiles"] (mkWorld [] [])
  = mkWorld
      [("/repo/package puml/tiles.puml",
        String.concat newline
          (render_lines "tiles" (collect_classes [file_tile])))]
      ["Failed to generate for 'nope': Package directory not found: /repo/nope";
       "Failed to generate for 'setup.py': Package directory not found: /repo/setup.py";
       "Failed to generate for 'deep': maximum recursion depth exceeded";
       "Failed to generate for 'ui/widgets': [Errno 2] No such file or directory: '/repo/package puml/ui/widgets.puml'";
       "Generated /repo/package puml/tiles.puml with 1 classes"].
Proof. vm_compute. reflexivity. Qed.


(** The edge sections of the two discovery orders. *)
Example edges_follow_discovery_order :
  flat_map (edges_of (collect_classes discovery1)) (collect_classes discovery1)
  = ["circle_Circle --|> shape_Shape"; "square_Square --|> shape_Shape"] /\
  flat_map (edges_of (collect_classes discovery2)) (collect_classes discovery2)
  = ["square_Square --|> shape_Shape"; "circle_Circle --|> shape_Shape"].
Proof. split; reflexivity. Qed.

(** * Further properties of the generator *)

(** ** File discovery *)

Example find_python_files_sample :
  find_python_files sample_tree
  = [["core.py"]; [".hidden.py"]; ["sub"; "util.py"]].
Proof. reflexivity. Qed.

Lemma dir_tree_induction (P : dir_tree -> Prop) :
  (forall subdirs filenames,
     (forall d sub, In (d, Some sub) subdirs -> P sub) ->
     P (DirNode subdirs filenames)) ->
  forall t, P t.
Proof.
  intros H. fix IH 1. intros [subdirs filenames]. apply H.
  revert subdirs.
  fix IHl 1. intros [|[d' o] l] d sub HIn.
  - destruct HIn.
  - destruct HIn as [e|i].
    + destruct o as [sub'|]; [|discriminate e].
      replace sub with sub' by congruence. apply IH.
    + exact (IHl l d sub i).
Qed.

Lemma os_walk_unfold (keep : string -> bool) (root : list string)
    (subdirs : list (string * option dir_tree)) (filenames : list string) :
  os_walk keep root (DirNode subdirs filenames) =
  (root, map fst subdirs, filenames)
  :: flat_map
       (fun e : string * option dir_tree =>
          if keep (fst e) then
            match snd e with
            | Some t' => os_walk keep (root ++ [fst e]) t'
            | None => []
            end
          else [])
       subdirs.
Proof.
  simpl. f_equal.
  induction subdirs as [|[d o] l IHl]; simpl; [reflexivity|].
  now rewrite IHl.
Qed.

Lemma find_python_files_spec (package_dir : dir_tree) :
  find_python_files package_dir =
  flat_map found_in (os_walk keep_dir [] package_dir).
Proof.
  unfold find_python_files.
  rewrite (fold_left_append_gen _ found_in); [reflexivity|].
  intros acc [[root dirs] filenames]. unfold found_in.
  rewrite (fold_left_append_gen _
             (fun fn => if keep_file fn then [root ++ [fn]] else [])).
  - f_equal. induction filenames as [|fn l IHl]; simpl; [reflexivity|].
    destruct (keep_file fn); simpl; now rewrite IHl.
  - intros files fn. destruct (keep_file fn); now rewrite ?app_nil_r.
Qed.

Lemma os_walk_found (t : dir_tree) :
  forall (root p : list string),
    In p (flat_map found_in (os_walk keep_dir root t)) <->
    exists ds fn,
      p = root ++ ds ++ [fn] /\ file_at t ds fn /\
      List.Forall (fun d => keep_dir d = true) ds /\ keep_file fn = true.
Proof.
  induction t as [subdirs filenames IH] using dir_tree_induction.
  intros root p. rewrite os_walk_unfold. cbn [flat_map].
  rewrite in_app_iff. split.
  - intros [Hhere|Hbelow].
    + unfold found_in in Hhere. apply in_map_iff in Hhere as (fn & <- & Hfn).
      apply filter_In in Hfn as [Hfn Hkeep].
      exists [], fn.
      split; [reflexivity|]. split; [now constructor|].
      split; [constructor|exact Hkeep].
    + apply in_flat_map in Hbelow as (entry & Hentry & Hp).
      apply in_flat_map in Hentry as ([d o] & Hd & Hentry). simpl in Hentry.
      destruct (keep_dir d) eqn:Hkeep; [|destruct Hentry].
      destruct o as [sub|]; [|destruct Hentry].
      assert (Hin : In p (flat_map found_in (os_walk keep_dir (root ++ [d]) sub))).
      { apply in_flat_map. eauto. }
      apply (proj1 (IH d sub Hd _ _)) in Hin
        as (ds & fn & -> & Hat & Hds & Hfn).
      exists (d :: ds), fn. repeat split; try assumption.
      * now rewrite <- app_assoc.
      * now apply (file_below subdirs filenames d sub).
      * now constructor.
  - intros (ds & fn & -> & Hat & Hds & Hfn).
    inversion Hat as [sd fns fn' Hin|sd fns d sub ds' fn' Hd Hsub]; subst.
    + left. unfold found_in. apply in_map_iff. exists fn.
      split; [reflexivity|]. apply filter_In. now split.
    + right. apply List.Forall_cons_iff in Hds as [Hd' Hds'].
      assert (Hin : In (root ++ (d :: ds') ++ [fn])
                      (flat_map found_in (os_walk keep_dir (root ++ [d]) sub))).
      { apply (proj2 (IH d sub Hd _ _)). exists ds', fn.
        repeat split; try assumption. now rewrite <- app_assoc. }
      apply in_flat_map in Hin as (entry & Hentry & Hp).
      apply in_flat_map. exists entry. split; [|exact Hp].
      apply in_flat_map. exists (d, Some sub). split; [exact Hd|].
      simpl. now rewrite Hd'.
Qed.

(** X1: the discovered files are exactly the files of the package tree whose
    name ends in [.py] and is not [__init__.py], and that are reached through
    directories none of which is named [__pycache__] or starts with a dot;
    a hidden file itself is not excluded. *)
Theorem X1_find_python_files_exactly (package_dir : dir_tree)
    (p : list string) :
  In p (find_python_files package_dir) <->
  exists ds fn,
    p = ds ++ [fn] /\ file_at package_dir ds fn /\
    List.Forall (fun d => d <> "__pycache__" /\ startswith "." d = false) ds /\
    endswith ".py" fn = true /\ fn <> "__init__.py".
Proof.
  rewrite find_python_files_spec, os_walk_found. simpl.
  assert (Hdir : forall d,
    keep_dir d = true <-> d <> "__pycache__" /\ startswith "." d = false).
  { intros d. unfold keep_dir.
    rewrite andb_true_iff, !negb_true_iff, String.eqb_neq. tauto. }
  assert (Hfile : forall fn,
    keep_file fn = true <-> endswith ".py" fn = true /\ fn <> "__init__.py").
  { intros fn. unfold keep_file.
    rewrite andb_true_iff, negb_true_iff, String.eqb_neq. tauto. }
  split; intros (ds & fn & Hp & Hat & Hds & Hfn); exists ds, fn.
  - apply Hfile in Hfn as [Hpy Hinit]. repeat split; try assumption.
    eapply List.Forall_impl; [|exact Hds]. intros d. apply Hdir.
  - repeat split; try assumption.
    + eapply List.Forall_impl; [|exact Hds]. intros d. apply Hdir.
    + apply Hfile. tauto.
Qed.

(** ** Tree walk and extraction *)

Lemma walk_loop_sound (fuel : nat) (todo : list node) (n : node) :
  In n (walk_loop fuel todo) -> exists t, In t todo /\ subnode n t.
Proof.
  revert todo. induction fuel as [|fuel IH]; intros [|h rest]; simpl;
    try contradiction.
  intros [<-|Hn].
  - exists h. split; [now left|constructor].
  - apply IH in Hn as (t & Ht & Hsub).
    apply in_app_or in Ht as [Ht|Ht].
    + exists t. split; [now right|exact Hsub].
    + exists h. split; [now left|]. now apply (subnode_child n t h).
Qed.

Lemma walk_loop_complete (fuel : nat) (todo : list node) (n t : node) :
  nodes_size todo <= fuel -> In t todo -> subnode n t ->
  In n (walk_loop fuel todo).
Proof.
  revert todo t. induction fuel as [|fuel IH]; intros [|h rest] t Hfuel Ht Hsub;
    try contradiction.
  - simpl in Hfuel. rewrite node_size_children in Hfuel. lia.
  - assert (Hrest : nodes_size (rest ++ iter_child_nodes h) <= fuel).
    { simpl in Hfuel. rewrite node_size_children in Hfuel.
      rewrite nodes_size_app. lia. }
    simpl. destruct Ht as [->|Ht].
    + inversion Hsub as [|n' c t' Hc Hsub']; subst; [now left|].
      right. apply (IH _ c Hrest); [|exact Hsub'].
      apply in_or_app. now right.
    + right. apply (IH _ t Hrest); [|exact Hsub].
      apply in_or_app. now left.
Qed.

(** X2: the walk of a tree visits exactly the nodes of the tree, the root
    and everything nested below it, and as many nodes as the tree has. *)
Theorem X2_walk_visits_every_node (tree n : node) :
  (In n (walk tree) <-> subnode n tree) /\
  length (walk tree) = node_size tree.
Proof.
  split; [|apply walk_length]. unfold walk. split.
  - intros H. apply walk_loop_sound in H as (t & [<-|[]] & Hsub). exact Hsub.
  - intros H. apply (walk_loop_complete _ _ n tree); [simpl; lia|now left|exact H].
Qed.

(** X3: the records extracted from a file that parses are exactly those of
    the class statements found anywhere in its tree, also of a class nested
    in a function or in another class. *)
Theorem X3_parse_classes_every_class_statement (f : py_file) (tree : node)
    (c : ClassInfo) :
  read_and_parse f = inr tree ->
  (In c (parse_classes f) <->
   exists nm bs body,
     subnode (ClassDef nm bs body) tree /\
     c = mkClassInfo (module_str f) nm (class_bases bs) (class_methods body)).
Proof.
  intros Hf. rewrite parse_classes_spec, Hf, in_flat_map. split.
  - intros (n & Hn & Hc).
    destruct n as [| nm bs body | | |]; simpl in Hc; try contradiction.
    destruct Hc as [<-|[]]. exists nm, bs, body. split; [|reflexivity].
    unfold walk in Hn.
    apply walk_loop_sound in Hn as (t & [<-|[]] & Hsub). exact Hsub.
  - intros (nm & bs & body & Hsub & ->).
    exists (ClassDef nm bs body). split; [|now left].
    apply (walk_loop_complete _ _ _ tree); [simpl; lia|now left|exact Hsub].
Qed.

(** [outer.py]: a function that defines a class, which defines a class. *)
Lemma X3_parse_classes_every_class_statement_witness :
  In (mkClassInfo "outer" "Inner" [] [])
     (parse_classes
        (mkPyFile ["outer"]
           (inr (Module_
                   [FunctionDef "make"
                      [ClassDef "Local" [] [ClassDef "Inner" [] []]]])))) <->
  exists nm bs body,
    subnode (ClassDef nm bs body)
      (Module_ [FunctionDef "make"
                  [ClassDef "Local" [] [ClassDef "Inner" [] []]]]) /\
    mkClassInfo "outer" "Inner" [] []
    = mkClassInfo
        (module_str
           (mkPyFile ["outer"]
              (inr (Module_
                      [FunctionDef "make"
                         [ClassDef "Local" [] [ClassDef "Inner" [] []]]]))))
        nm (class_bases bs) (class_methods body).
Proof.
  apply (X3_parse_classes_every_class_statement
           (mkPyFile ["outer"]
              (inr (Module_
                      [FunctionDef "make"
                         [ClassDef "Local" [] [ClassDef "Inner" [] []]]])))).
  reflexivity.
Defined.

(** X4: the methods of a record are the names of the plain function
    definitions that are direct children of the class body, in body order;
    an [async def], a nested class, any other statement and the functions
    inside them are not listed. *)
Theorem X4_class_methods_direct_functions (body : list node) :
  class_methods body =
    omap (fun n => match n with FunctionDef nm _ => Some nm | _ => None end)
      body /\
  (forall m, In m (class_methods body) <-> exists b, In (FunctionDef m b) body) /\
  length (class_methods body) <= length body /\
  (forall n rest,
     class_methods (n :: rest) =
     match n with
     | FunctionDef nm _ => nm :: class_methods rest
     | _ => class_methods rest
     end).
Proof.
  assert (Hcons : forall n rest,
     class_methods (n :: rest) =
     match n with
     | FunctionDef nm _ => nm :: class_methods rest
     | _ => class_methods rest
     end).
  { intros n rest. rewrite !class_methods_spec. now destruct n. }
  split; [|split; [|split; [|exact Hcons]]].
  - induction body as [|n body IH]; [reflexivity|].
    rewrite Hcons. cbn [omap list_omap]. fold (@omap list _ node string).
    destruct n; cbn; now rewrite <- IH.
  - intros m. rewrite class_methods_spec, in_flat_map. split.
    + intros (n & Hn & Hm).
      destruct n; simpl in Hm; try contradiction.
      destruct Hm as [<-|[]]. eauto.
    + intros (b & Hb). exists (FunctionDef m b). split; [exact Hb|now left].
  - rewrite class_methods_spec.
    induction body as [|n body IH]; simpl; [lia|].
    rewrite length_app. destruct n; simpl; lia.
Qed.

(** ** The name index *)

(** X5: looking a name up in the index by simple name yields the records
    of that name in the order of extraction; a name that no record has is a
    missing key, and no key holds an empty list. *)
Theorem X5_by_simple_get (all_classes : list ClassInfo) (b : string) :
  (by_simple all_classes !! b = None <->
   forall c, In c all_classes -> name c <> b) /\
  (forall ts, by_simple all_classes !! b = Some ts ->
     ts <> [] /\ ts = targets all_classes b) /\
  (forall t, In t (default [] (by_simple all_classes !! b)) <->
     In t all_classes /\ name t = b).
Proof.
  assert (Hlookup : by_simple all_classes !! b =
                    match targets all_classes b with
                    | [] => None
                    | found => Some found
                    end).
  { unfold by_simple, targets. rewrite index_lookup, lookup_empty.
    now destruct (List.filter _ all_classes). }
  split; [|split].
  - rewrite Hlookup. split.
    + intros H c Hc Hname.
      assert (Hin : In c (targets all_classes b)) by (apply targets_in; tauto).
      destruct (targets all_classes b); [destruct Hin|discriminate].
    + intros H. destruct (targets all_classes b) as [|t ts] eqn:Ht;
        [reflexivity|].
      assert (Hin : In t (targets all_classes b)) by (rewrite Ht; now left).
      apply targets_in in Hin as [Hin Hname]. now destruct (H t Hin).
  - intros ts. rewrite Hlookup.
    destruct (targets all_classes b); [discriminate|].
    intros [= <-]. split; [discriminate|reflexivity].
  - intros t. rewrite by_simple_lookup. apply targets_in.
Qed.

(** ** Grouping by module *)

Lemma filter_module_same (f : py_file) :
  List.filter (fun c => String.eqb (module c) (module_str f)) (parse_classes f)
  = parse_classes f.
Proof.
  assert (H : forall c, In c (parse_classes f) -> module c = module_str f)
    by apply parse_classes_module.
  induction (parse_classes f) as [|c l IH]; simpl; [reflexivity|].
  rewrite (H c) by now left. rewrite String.eqb_refl. f_equal.
  apply IH. intros c' Hc'. apply H. now right.
Qed.

Lemma filter_module_none (py_files : list py_file) (m : string) :
  ~ In m (map module_str py_files) ->
  List.filter (fun c => String.eqb (module c) m)
    (flat_map parse_classes py_files) = [].
Proof.
  induction py_files as [|f l IH]; simpl; [reflexivity|].
  intros Hm. rewrite List.filter_app, filter_module_other, IH; tauto.
Qed.

Lemma filter_module_file (py_files : list py_file) (f : py_file) :
  List.NoDup (map module_str py_files) -> In f py_files ->
  List.filter (fun c => String.eqb (module c) (module_str f))
    (flat_map parse_classes py_files) = parse_classes f.
Proof.
  induction py_files as [|g l IH]; simpl; [intros _ []|].
  intros Hnd Hf. apply List.NoDup_cons_iff in Hnd as [Hg Hnd].
  rewrite List.filter_app. destruct Hf as [->|Hf].
  - rewrite filter_module_same, filter_module_none by exact Hg.
    apply app_nil_r.
  - rewrite filter_module_other, IH by
      (try assumption; intros Heq; apply Hg; rewrite Heq; now apply in_map).
    reflexivity.
Qed.

(** X6: when the files of a package have pairwise distinct module paths,
    the group of a file's module path holds exactly the records of that
    file, in the order of extraction; a file without records has no group,
    and every group belongs to the module path of some file. *)
Theorem X6_by_module_groups_files (py_files : list py_file) :
  List.NoDup (map module_str py_files) ->
  (forall f, In f py_files ->
     by_module (collect_classes py_files) !! module_str f =
     match parse_classes f with
     | [] => None
     | found => Some found
     end) /\
  (forall m cs, by_module (collect_classes py_files) !! m = Some cs ->
     exists f, In f py_files /\ module_str f = m /\ cs = parse_classes f).
Proof.
  intros Hnd.
  assert (Hfile : forall f, In f py_files ->
     by_module (collect_classes py_files) !! module_str f =
     match parse_classes f with
     | [] => None
     | found => Some found
     end).
  { intros f Hf.
    now rewrite by_module_lookup, collect_classes_spec, filter_module_file. }
  split; [exact Hfile|].
  intros m cs Hm.
  destruct (in_dec string_dec m (map module_str py_files)) as [Hin|Hout].
  - apply in_map_iff in Hin as (f & <- & Hf).
    exists f. split; [exact Hf|]. split; [reflexivity|].
    rewrite (Hfile f Hf) in Hm.
    destruct (parse_classes f); congruence.
  - rewrite by_module_lookup, collect_classes_spec, filter_module_none in Hm
      by exact Hout.
    discriminate.
Qed.

Lemma X6_by_module_groups_files_witness :
  (forall f, In f discovery1 ->
     by_module (collect_classes discovery1) !! module_str f =
     match parse_classes f with
     | [] => None
     | found => Some found
     end) /\
  (forall m cs, by_module (collect_classes discovery1) !! m = Some cs ->
     exists f, In f discovery1 /\ module_str f = m /\ cs = parse_classes f).
Proof.
  apply (X6_by_module_groups_files discovery1).
  repeat (apply List.NoDup_cons; [simpl; intuition discriminate|]).
  apply List.NoDup_nil.
Defined.

(** ** The container section *)

Lemma class_block_acc (lines : list string) (c : ClassInfo) :
  class_block lines c = lines ++ class_block [] c.
Proof. now rewrite !class_block_spec. Qed.

Lemma module_block_spec (package_name : string) (lines : list string)
    (m : string) (cs : list ClassInfo) :
  module_block package_name lines (m, cs) =
  lines
  ++ ["  package " +:+ dquote +:+ display_module m package_name +:+ dquote
      +:+ " {"]
  ++ flat_map (class_block []) (sorted name cs) ++ ["  }"].
Proof.
  unfold module_block.
  rewrite (fold_left_append_gen _ (class_block [])) by apply class_block_acc.
  now rewrite <- !app_assoc.
Qed.

Lemma container_lines_spec (package_name : string)
    (all_classes : list ClassInfo) :
  container_lines package_name all_classes =
  ["@startuml"; "skinparam classAttributeIconSize 0";
   "package " +:+ dquote +:+ package_name +:+ dquote +:+ " {"]
  ++ flat_map (module_block package_name [])
       (sorted fst (map_to_list (by_module all_classes)))
  ++ ["}"].
Proof.
  unfold container_lines.
  rewrite (fold_left_append_gen _ (module_block package_name [])).
  - now rewrite <- app_assoc.
  - intros acc [m cs]. now rewrite !module_block_spec.
Qed.

Lemma insert_by_filter {A : Type} (key : A -> string) (k : string) (x : A)
    (s : list A) :
  List.filter (fun y => String.eqb (key y) k) (insert_by key x s) =
  List.filter (fun y => String.eqb (key y) k) (x :: s).
Proof.
  induction s as [|y s IH]; [reflexivity|].
  cbn [insert_by]. destruct (String.leb (key x) (key y)) eqn:Hle;
    [reflexivity|].
  assert (Hne : key x <> key y).
  { intros Heq. rewrite Heq in Hle. pose proof (str_le_refl (key y)) as H.
    unfold str_le in H. congruence. }
  cbn [List.filter] in *. rewrite IH.
  destruct (String.eqb_spec (key x) k) as [Hx|Hx];
    destruct (String.eqb_spec (key y) k) as [Hy|Hy];
    try reflexivity.
  congruence.
Qed.

Lemma sorted_stable {A : Type} (key : A -> string) (k : string) (l : list A) :
  List.filter (fun y => String.eqb (key y) k) (sorted key l) =
  List.filter (fun y => String.eqb (key y) k) l.
Proof.
  induction l as [|x l IH]; [reflexivity|].
  cbn [sorted foldr]. rewrite insert_by_filter.
  cbn [List.filter]. unfold sorted in IH. now rewrite IH.
Qed.

(** X7: the block of a module holds the blocks of its classes between its
    opening and closing lines, in ascending order of class name; classes of
    the same name stay in the order in which they were extracted. *)
Theorem X7_module_block_order (package_name : string) (lines : list string)
    (m : string) (cs : list ClassInfo) :
  exists ordered,
    module_block package_name lines (m, cs) =
      lines
      ++ ["  package " +:+ dquote +:+ display_module m package_name
          +:+ dquote +:+ " {"]
      ++ flat_map (class_block []) ordered ++ ["  }"] /\
    Permutation ordered cs /\
    StronglySorted (fun c1 c2 => str_le (name c1) (name c2)) ordered /\
    forall k,
      List.filter (fun c => String.eqb (name c) k) ordered =
      List.filter (fun c => String.eqb (name c) k) cs.
Proof.
  exists (sorted name cs). split; [apply module_block_spec|].
  split; [apply sorted_perm|]. split; [apply sorted_strongly_sorted|].
  intros k. apply sorted_stable.
Qed.

Lemma sorted_items_in (all_classes : list ClassInfo) (m : string)
    (cs : list ClassInfo) :
  In (m, cs) (sorted fst (map_to_list (by_module all_classes))) <->
  by_module all_classes !! m = Some cs.
Proof.
  rewrite <- elem_of_map_to_list, list_elem_of_In. split.
  - apply Permutation_in, sorted_perm.
  - apply Permutation_in. symmetry. apply sorted_perm.
Qed.

(** X8: the container section is the three opening lines, one block per
    module that has records, and the closing brace; the module blocks come
    in ascending order of module path, each path once, and the block of a
    path holds exactly the records of that module, in extraction order
    before the sort by name. *)
Theorem X8_container_structure (package_name : string)
    (all_classes : list ClassInfo) :
  exists items : list (string * list ClassInfo),
    container_lines package_name all_classes =
      ["@startuml"; "skinparam classAttributeIconSize 0";
       "package " +:+ dquote +:+ package_name +:+ dquote +:+ " {"]
      ++ flat_map (module_block package_name []) items ++ ["}"] /\
    StronglySorted (fun i1 i2 => str_le (fst i1) (fst i2)) items /\
    List.NoDup (map fst items) /\
    forall m cs,
      In (m, cs) items <->
      cs <> [] /\
      cs = List.filter (fun c => String.eqb (module c) m) all_classes.
Proof.
  exists (sorted fst (map_to_list (by_module all_classes))).
  split; [apply container_lines_spec|].
  split; [apply sorted_strongly_sorted|]. split.
  - eapply Permutation_NoDup.
    + apply Permutation_map. symmetry. apply sorted_perm.
    + apply NoDup_ListNoDup, NoDup_fst_map_to_list.
  - intros m cs. rewrite sorted_items_in, by_module_lookup.
    destruct (List.filter _ all_classes) as [|c l].
    + split; [discriminate|]. intros [Hne ->]. now destruct Hne.
    + split; [intros [= <-]; split; [discriminate|reflexivity]|].
      now intros [_ ->].
Qed.

Lemma setdefault_append_items (k : string) (c : ClassInfo)
    (d : gmap string (list ClassInfo)) :
  Permutation (flat_map snd (map_to_list (setdefault_append k c d)))
              (flat_map snd (map_to_list d) ++ [c]).
Proof.
  unfold setdefault_append. destruct (d !! k) as [l|] eqn:Hk; simpl.
  - rewrite <- insert_delete_eq.
    rewrite (Permutation_flat_map snd
               (map_to_list_insert (delete k d) k (l ++ [c])
                  (lookup_delete_eq d k))).
    rewrite <- (Permutation_flat_map snd (map_to_list_delete d k l Hk)).
    simpl. rewrite <- !app_assoc. apply Permutation_app_head.
    apply Permutation_app_comm.
  - rewrite (Permutation_flat_map snd (map_to_list_insert d k [c] Hk)).
    simpl. apply (Permutation_app_comm [c]).
Qed.

Lemma index_items (key : ClassInfo -> string) (l : list ClassInfo)
    (d : gmap string (list ClassInfo)) :
  Permutation
    (flat_map snd
       (map_to_list (fold_left (fun d c => setdefault_append (key c) c d) l d)))
    (flat_map snd (map_to_list d) ++ l).
Proof.
  revert d. induction l as [|c l IH]; intros d; simpl.
  - now rewrite app_nil_r.
  - rewrite IH, setdefault_append_items. now rewrite <- app_assoc.
Qed.

Lemma by_module_items (all_classes : list ClassInfo) :
  Permutation (flat_map snd (map_to_list (by_module all_classes))) all_classes.
Proof.
  unfold by_module. rewrite index_items, map_to_list_empty. reflexivity.
Qed.

Lemma class_block_headers (c : ClassInfo) :
  List.filter is_class_header (class_block [] c) = [class_header c].
Proof.
  rewrite class_block_spec. cbn [app List.filter].
  assert (Hh : is_class_header (class_header c) = true) by reflexivity.
  rewrite Hh. f_equal.
  rewrite List.filter_app.
  assert (Hm : List.filter is_class_header
                 (map method_line (take 12 (sorted id (methods c)))) = []).
  { induction (take 12 (sorted id (methods c))) as [|m ms IH];
      [reflexivity|exact IH]. }
  rewrite Hm. now destruct (12 <? length (methods c))%nat.
Qed.

Lemma module_block_headers (package_name : string)
    (item : string * list ClassInfo) :
  List.filter is_class_header (module_block package_name [] item) =
  map class_header (sorted name (snd item)).
Proof.
  destruct item as [m cs]. rewrite module_block_spec. cbn [app List.filter snd].
  assert (Ho : forall s, is_class_header ("  package " +:+ s) = false)
    by reflexivity.
  rewrite Ho, List.filter_app. simpl. rewrite app_nil_r.
  induction (sorted name cs) as [|c l IH]; [reflexivity|].
  cbn [flat_map map]. now rewrite List.filter_app, class_block_headers, IH.
Qed.

(** X9: every extracted record gets exactly one class block in the
    container section: the class header lines of the section are the headers
    of the records, each as often as the record occurs, and there are as
    many as records. *)
Theorem X9_one_block_per_record (package_name : string)
    (all_classes : list ClassInfo) :
  Permutation
    (List.filter is_class_header (container_lines package_name all_classes))
    (map class_header all_classes) /\
  length
    (List.filter is_class_header (container_lines package_name all_classes))
  = length all_classes.
Proof.
  assert (Hperm : Permutation
    (List.filter is_class_header (container_lines package_name all_classes))
    (map class_header all_classes)).
  { rewrite container_lines_spec. cbn [app List.filter].
    assert (Hp : forall s, is_class_header ("package " +:+ s) = false)
      by reflexivity.
    rewrite Hp, List.filter_app. simpl. rewrite app_nil_r.
    transitivity
      (map class_header
         (flat_map snd (sorted fst (map_to_list (by_module all_classes))))).
    - induction (sorted fst (map_to_list (by_module all_classes)))
        as [|item items IH]; [reflexivity|].
      cbn [flat_map]. rewrite List.filter_app, module_block_headers, map_app.
      apply Permutation_app; [|exact IH].
      apply Permutation_map, sorted_perm.
    - apply Permutation_map.
      rewrite (Permutation_flat_map snd (sorted_perm fst _)).
      apply by_module_items. }
  split; [exact Hperm|].
  rewrite (Permutation_length Hperm). apply length_map.
Qed.

(** ** The inheritance section *)

(** X10: the inheritance section holds exactly the edges from a record to
    every record of the run whose simple name is one of its bases, and the
    document is the container section, this section and the footer. *)
Theorem X10_edge_lines_exactly (package_name : string)
    (all_classes : list ClassInfo) (line : string) :
  (In line (fold_left (class_edges (by_simple all_classes)) all_classes []) <->
   exists c t,
     In c all_classes /\ In t all_classes /\ In (name t) (bases c) /\
     line = alias c +:+ " --|> " +:+ alias t) /\
  render_lines package_name all_classes =
    container_lines package_name all_classes
    ++ fold_left (class_edges (by_simple all_classes)) all_classes []
    ++ ["@enduml"].
Proof.
  assert (Hfold :
    fold_left (class_edges (by_simple all_classes)) all_classes [] =
    flat_map (edges_of all_classes) all_classes).
  { apply (fold_left_append_gen _ (edges_of all_classes)).
    intros acc c. apply class_edges_spec. }
  rewrite Hfold. split; [|apply render_lines_spec].
  rewrite in_flat_map. split.
  - intros (c & Hc & Hline). unfold edges_of in Hline.
    apply in_flat_map in Hline as (b & Hb & Hline).
    apply in_map_iff in Hline as (t & <- & Ht).
    apply targets_in in Ht as [Ht <-].
    exists c, t. repeat split; assumption.
  - intros (c & t & Hc & Ht & Hb & ->).
    exists c. split; [exact Hc|]. now apply edges_of_in.
Qed.

(** ** Module paths and labels *)

Lemma split_dot_nonempty (s : string) : split_dot s <> [].
Proof.
  destruct s as [|c s]; simpl; [discriminate|].
  destruct (Ascii.eqb c "."); [discriminate|].
  destruct (split_dot s); discriminate.
Qed.

Lemma concat_split_dot (s : string) : String.concat "." (split_dot s) = s.
Proof.
  induction s as [|c s IH]; [reflexivity|].
  cbn [split_dot]. destruct (Ascii.eqb_spec c ".") as [->|Hc].
  - destruct (split_dot s) as [|h t] eqn:Hs; [now destruct (split_dot_nonempty s)|].
    change (String.concat "." (EmptyString :: h :: t))
      with ("." +:+ String.concat "." (h :: t)).
    now rewrite IH.
  - destruct (split_dot s) as [|h t] eqn:Hs; [now destruct (split_dot_nonempty s)|].
    destruct t as [|y t]; simpl in *; now rewrite <- IH.
Qed.

Lemma split_dot_no_dot (s : string) : no_dot s = true -> split_dot s = [s].
Proof.
  induction s as [|c s IH]; [reflexivity|].
  cbn [no_dot split_dot]. intros H. apply andb_true_iff in H as [Hc Hs].
  apply negb_true_iff in Hc. rewrite Hc, (IH Hs). reflexivity.
Qed.

Lemma split_dot_app (p rest : string) :
  no_dot p = true -> split_dot (p +:+ "." +:+ rest) = p :: split_dot rest.
Proof.
  induction p as [|c p IH]; [reflexivity|].
  cbn [no_dot]. intros H. apply andb_true_iff in H as [Hc Hp].
  apply negb_true_iff in Hc.
  change (String c p +:+ "." +:+ rest) with (String c (p +:+ "." +:+ rest)).
  cbn [split_dot]. rewrite Hc, (IH Hp). reflexivity.
Qed.

Lemma split_dot_concat (parts : list string) :
  parts <> [] -> List.Forall (fun p => no_dot p = true) parts ->
  split_dot (String.concat "." parts) = parts.
Proof.
  induction parts as [|p parts IH]; [congruence|].
  intros _ Hall. apply List.Forall_cons_iff in Hall as [Hp Hall].
  destruct parts as [|q parts]; [now apply split_dot_no_dot|].
  change (String.concat "." (p :: q :: parts))
    with (p +:+ "." +:+ String.concat "." (q :: parts)).
  rewrite split_dot_app by exact Hp. f_equal.
  apply IH; [discriminate|exact Hall].
Qed.

(** X11: splitting a module path at its dots and joining the pieces with
    dots gives the path back, and joining path parts that hold no dot and
    splitting the result gives the parts back. *)
Theorem X11_split_join_round_trip :
  (forall s, String.concat "." (split_dot s) = s) /\
  (forall parts,
     parts <> [] -> List.Forall (fun p => no_dot p = true) parts ->
     split_dot (String.concat "." parts) = parts).
Proof. split; [exact concat_split_dot|exact split_dot_concat]. Qed.

(** X12: for a file whose path parts hold no dot, the label of its module
    container is the last part, the file name without its extension; a file
    whose module path is empty is labelled with the package name. *)
Theorem X12_display_module_is_file_stem (f : py_file) (package_name : string)
    (dirs : list string) (stem : string) :
  module_parts f = dirs ++ [stem] ->
  List.Forall (fun p => no_dot p = true) (module_parts f) ->
  display_module (module_str f) package_name =
  if String.eqb (module_str f) "" then package_name else stem.
Proof.
  intros Hparts Hall. unfold display_module.
  destruct (String.eqb (module_str f) ""); [reflexivity|].
  unfold module_str. rewrite split_dot_concat.
  - rewrite Hparts, last_snoc. reflexivity.
  - rewrite Hparts. now destruct dirs.
  - exact Hall.
Qed.

Lemma X12_display_module_is_file_stem_witness :
  display_module (module_str file_widget) "ui" =
  if String.eqb (module_str file_widget) "" then "ui" else "shape".
Proof.
  apply (X12_display_module_is_file_stem file_widget "ui" ["widgets"] "shape").
  - reflexivity.
  - repeat constructor.
Defined.

(** ** Aliases *)

Lemma replace_dot_app (s1 s2 : string) :
  replace_dot (s1 +:+ s2) = replace_dot s1 +:+ replace_dot s2.
Proof. induction s1 as [|c s1 IH]; simpl; [reflexivity|now rewrite IH]. Qed.

Lemma replace_dot_no_dot (s : string) : no_dot s = true -> replace_dot s = s.
Proof.
  induction s as [|c s IH]; [reflexivity|].
  cbn [no_dot replace_dot]. intros H. apply andb_true_iff in H as [Hc Hs].
  apply negb_true_iff in Hc. now rewrite Hc, (IH Hs).
Qed.

Lemma no_dot_replace_dot (s : string) : no_dot (replace_dot s) = true.
Proof.
  induction s as [|c s IH]; [reflexivity|].
  cbn [replace_dot no_dot]. rewrite IH, andb_true_r.
  destruct (Ascii.eqb c ".") eqn:Hc; [reflexivity|now rewrite Hc].
Qed.

Lemma length_replace_dot (s : string) :
  String.length (replace_dot s) = String.length s.
Proof. induction s as [|c s IH]; simpl; [reflexivity|now rewrite IH]. Qed.

(** X13: for a class name without a dot, the alias is the fully-qualified
    name with every dot replaced by an underscore; it holds no dot and is
    as long as the fully-qualified name. *)
Theorem X13_alias_from_fqname (c : ClassInfo) :
  no_dot (name c) = true ->
  alias c = replace_dot (fqname c) /\
  no_dot (alias c) = true /\
  String.length (alias c) = String.length (fqname c).
Proof.
  intros Hname.
  assert (Heq : alias c = replace_dot (fqname c)).
  { unfold alias, fqname. destruct (String.eqb (module c) "").
    - now rewrite replace_dot_no_dot.
    - now rewrite !replace_dot_app. }
  rewrite Heq. split; [reflexivity|]. split.
  - apply no_dot_replace_dot.
  - apply length_replace_dot.
Qed.

Lemma X13_alias_from_fqname_witness :
  alias widget_record = replace_dot (fqname widget_record) /\
  no_dot (alias widget_record) = true /\
  String.length (alias widget_record) = String.length (fqname widget_record).
Proof. apply (X13_alias_from_fqname widget_record). reflexivity. Defined.

Lemma alias_same_module (c1 c2 : ClassInfo) :
  module c1 = module c2 ->
  no_dot (name c1) = true -> no_dot (name c2) = true ->
  alias c1 = alias c2 -> name c1 = name c2.
Proof.
  unfold alias. intros <- H1 H2.
  destruct (String.eqb (module c1) ""); [tauto|].
  rewrite !replace_dot_app, !(replace_dot_no_dot (name _)) by assumption.
  intros H. apply append_inv_head in H. now apply (append_inv_head "_") in H.
Qed.

(** X14: records of one module whose class names hold no dot and are
    pairwise distinct have pairwise distinct aliases. *)
Theorem X14_aliases_distinct_within_module (m : string)
    (cs : list ClassInfo) :
  (forall c, In c cs -> module c = m /\ no_dot (name c) = true) ->
  List.NoDup (map name cs) ->
  List.NoDup (map alias cs).
Proof.
  induction cs as [|c cs IH]; simpl; intros Hall Hnd; [constructor|].
  apply List.NoDup_cons_iff in Hnd as [Hc Hnd].
  constructor.
  - rewrite in_map_iff. intros (c' & Halias & Hc').
    apply Hc. rewrite in_map_iff. exists c'. split; [|exact Hc'].
    destruct (Hall c (or_introl eq_refl)) as [Hm Hn].
    destruct (Hall c' (or_intror Hc')) as [Hm' Hn'].
    apply alias_same_module; congruence.
  - apply IH; [|exact Hnd]. intros c' Hc'. apply Hall. now right.
Qed.

Lemma X14_aliases_distinct_within_module_witness :
  List.NoDup
    (map alias [mkClassInfo "a.b" "C" [] []; mkClassInfo "a.b" "D" [] []]).
Proof.
  apply (X14_aliases_distinct_within_module "a.b").
  - intros c [<-|[<-|[]]]; split; reflexivity.
  - repeat (apply List.NoDup_cons; [simpl; intuition discriminate|]).
    apply List.NoDup_nil.
Defined.

(** ** Files written by a batch *)

Lemma main_step_written (fs : string -> fsnode)
    (sink : string -> string -> option exn) (repo_root : string)
    (w : world) (pkg : string) :
  written (main_step fs sink repo_root w pkg) =
  written w ++
  match build_puml_for_package fs pkg repo_root with
  | inr (content, _) =>
      match sink (output_path repo_root pkg) content with
      | None => [(output_path repo_root pkg, content)]
      | Some _ => []
      end
  | inl _ => []
  end.
Proof.
  destruct (build_puml_for_package fs pkg repo_root)
    as [e|[content classes]] eqn:Hbuild.
  - rewrite (main_step_failed _ _ _ _ _ e Hbuild). simpl.
    now rewrite app_nil_r.
  - destruct (sink (output_path repo_root pkg) content) as [e|] eqn:Hsink.
    + rewrite (main_step_unsaved _ _ _ _ _ _ _ e Hbuild Hsink). simpl.
      now rewrite app_nil_r.
    + now rewrite (main_step_saved _ _ _ _ _ _ _ Hbuild Hsink).
Qed.

Lemma main_snoc (fs : string -> fsnode)
    (sink : string -> string -> option exn) (repo_root : string)
    (packages : list string) (pkg : string) (w : world) :
  main fs sink repo_root (packages ++ [pkg]) w =
  main_step fs sink repo_root (main fs sink repo_root packages w) pkg.
Proof. now rewrite main_app. Qed.

Lemma main_keeps_written (fs : string -> fsnode)
    (sink : string -> string -> option exn) (repo_root : string)
    (packages : list string) (w : world) (entry : string * string) :
  In entry (written w) ->
  In entry (written (main fs sink repo_root packages w)).
Proof.
  induction packages as [|p packages IH] using rev_ind; [trivial|].
  intros Hin. rewrite main_snoc, main_step_written.
  apply in_or_app. left. now apply IH.
Qed.

(** X15: after a batch, the document of every listed package whose build
    returns and whose write is accepted has been written to the file
    [<package>.puml] joined to the output directory, whatever the other
    packages of the batch are. *)
Theorem X15_batch_writes_each_document (fs : string -> fsnode)
    (sink : string -> string -> option exn) (repo_root : string)
    (packages : list string) (w : world) (pkg content : string)
    (classes : list ClassInfo) :
  In pkg packages ->
  build_puml_for_package fs pkg repo_root = inr (content, classes) ->
  sink (output_path repo_root pkg) content = None ->
  In (output_path repo_root pkg, content)
     (written (main fs sink repo_root packages w)).
Proof.
  intros Hin Hbuild Hsink.
  apply in_split in Hin as (before & after & ->).
  rewrite main_app.
  change (main fs sink repo_root (pkg :: after)
            (main fs sink repo_root before w))
    with (main fs sink repo_root after
            (main_step fs sink repo_root
               (main fs sink repo_root before w) pkg)).
  apply main_keeps_written.
  rewrite (main_step_saved _ _ _ _ _ _ _ Hbuild Hsink). simpl.
  apply in_or_app. right. now left.
Qed.

Lemma X15_batch_writes_each_document_witness :
  In (output_path "/repo" "tiles",
      String.concat newline
        (render_lines "tiles" (collect_classes [file_tile])))
     (written (main fs_repo sink_flat "/repo"
                 ["nope"; "tiles"; "ui/widgets"; "deep"] (mkWorld [] []))).
Proof.
  apply (X15_batch_writes_each_document fs_repo sink_flat "/repo"
           ["nope"; "tiles"; "ui/widgets"; "deep"] (mkWorld [] []) "tiles"
           (String.concat newline
              (render_lines "tiles" (collect_classes [file_tile])))
           (collect_classes [file_tile])).
  - right. left. reflexivity.
  - reflexivity.
  - vm_compute. reflexivity.
Defined.



(** ** Lengths of strings *)

Lemma length_append (s1 s2 : string) :
  String.length (s1 +:+ s2) = String.length s1 + String.length s2.
Proof. induction s1 as [|c s1 IH]; simpl; [reflexivity|now rewrite IH]. Qed.

(** ** The string tests, against their meaning *)

Lemma substring_all (s : string) :
  String.substring 0 (String.length s) s = s.
Proof. induction s as [|c s IH]; simpl; [reflexivity|now rewrite IH]. Qed.

Lemma substring_tail (p suffix : string) :
  String.substring (String.length p) (String.length suffix) (p +:+ suffix)
  = suffix.
Proof. induction p as [|c p IH]; [apply substring_all|exact IH]. Qed.

Lemma substring_split (s : string) (k m : nat) :
  k + m = String.length s ->
  s = String.substring 0 k s +:+ String.substring k m s.
Proof.
  revert k m. induction s as [|c s IH]; intros k m H.
  - simpl in H. assert (k = 0) by lia. assert (m = 0) by lia. now subst.
  - destruct k as [|k].
    + simpl in H. subst m.
      change (String c s =
              String.substring 0 (String.length (String c s)) (String c s)).
      now rewrite substring_all.
    + change (String c s =
              String c (String.substring 0 k s +:+ String.substring k m s)).
      f_equal. apply IH. simpl in H. lia.
Qed.

Lemma endswith_iff (suffix s : string) :
  endswith suffix s = true <-> exists p, s = p +:+ suffix.
Proof.
  unfold endswith. rewrite andb_true_iff, Nat.leb_le, String.eqb_eq. split.
  - intros [Hlen Hsub].
    exists (String.substring 0 (String.length s - String.length suffix) s).
    pose proof (substring_split s
                  (String.length s - String.length suffix)
                  (String.length suffix)) as Hsplit.
    rewrite Hsub in Hsplit. apply Hsplit. lia.
  - intros [p ->]. rewrite length_append. split; [lia|].
    replace (String.length p + String.length suffix - String.length suffix)
      with (String.length p) by lia.
    apply substring_tail.
Qed.

Lemma startswith_iff (prefix s : string) :
  startswith prefix s = true <-> exists rest, s = prefix +:+ rest.
Proof.
  revert s. induction prefix as [|a prefix IH]; intros s.
  - split; [intros _; now exists s|reflexivity].
  - destruct s as [|b s]; simpl.
    + split; [discriminate|]. intros [rest H]. discriminate H.
    + rewrite andb_true_iff, Ascii.eqb_eq, IH. split.
      * intros [-> [rest ->]]. now exists rest.
      * intros [rest H]. injection H as -> ->. split; [reflexivity|now exists rest].
Qed.
